(** * The fetchers and the enrichment pipeline of daily-dataset

    A shallow embedding of the four scripts under [scripts/]:

    - [submarine_cable_ingestor.py]: [fetch_json], [enrich_feature] and the
      thread-pool loop of [main];
    - [peeringdb_datasets.py]: [fetch_json];
    - [osm_power.py]: [fetch_overpass];
    - [osm_power_node_primary.py]: [download_tag].

    Python values parsed by [json.load] are the type [json]; a function that
    can raise returns a [result]; a function that talks to the network
    returns an [io]: the events it emitted (requests, sleeps) and its
    outcome.  The network and the random source are oracles passed in as
    arguments.  [print] and [log] calls are left out, except where the
    expression they format can itself raise. *)

From Stdlib Require Import ZArith QArith Qpower Floats.SpecFloat.
From stdpp Require Import base option list gmap strings pretty.

Local Open Scope Z_scope.

(** ** Python values *)

Module Py.

(** What [json.load] builds: [None], [bool], [int], [float], [str], [list]
    and [dict] with string keys.  A tree: no two places share an object.
    A [dict] is a finite map: the order of its keys, which only shows when
    the document is written out, is not kept. *)
#[warnings="-register-all"]
Inductive json : Type :=
  | JNull
  | JBool (b : bool)
  | JInt (n : Z)
  | JFloat (f : spec_float)
  | JStr (s : string)
  | JArr (items : list json)
  | JObj (fields : gmap string json).

(** The exceptions that the modelled statements can raise. *)
Inductive exn : Type :=
  | AttributeError
  | TypeError
  | KeyError
  | JSONDecodeError.

Inductive result (A : Type) : Type :=
  | Returned (a : A)
  | Raised (e : exn).
Arguments Returned {A} a.
Arguments Raised {A} e.

#[global] Instance result_ret : MRet result := λ A a, Returned a.
#[global] Instance result_bind : MBind result := λ A B f m,
  match m with
  | Returned a => f a
  | Raised e => Raised e
  end.

(** Events emitted, in order, and the outcome. *)
Definition io (E A : Type) : Type := list E * result A.

#[global] Instance io_ret {E} : MRet (io E) := λ A a, ([], Returned a).
#[global] Instance io_bind {E} : MBind (io E) := λ A B f m,
  match m with
  | (t, Returned a) => let '(t', r) := f a in (t ++ t', r)
  | (t, Raised e) => (t, Raised e)
  end.

Definition emit {E} (e : E) : io E unit := ([e], Returned tt).
Definition lift {E A} (r : result A) : io E A := ([], r).

(** [bool(v)]: the test of [if v] and [if not v]. *)
Definition float_is_zero (f : spec_float) : bool :=
  match f with
  | S754_zero _ => true
  | _ => false
  end.

Definition truthy (v : json) : bool :=
  match v with
  | JNull => false
  | JBool b => b
  | JInt n => negb (n =? 0)
  | JFloat f => negb (float_is_zero f)
  | JStr s => negb (String.eqb s "")
  | JArr items => negb (bool_decide (length items = 0%nat))
  | JObj fields => negb (bool_decide (size fields = 0%nat))
  end.

(** [obj.get(key, default)]: only a [dict] has the method. *)
Definition get (obj : json) (key : string) (dflt : json) : result json :=
  match obj with
  | JObj fields => Returned (default dflt (fields !! key))
  | _ => Raised AttributeError
  end.

(** [s in t] on two strings: [s] occurs in [t]. *)
Fixpoint occurs_in (s t : string) : bool :=
  String.prefix s t ||
  match t with
  | EmptyString => false
  | String _ t' => occurs_in s t'
  end.

Definition is_str (key : string) (v : json) : bool :=
  match v with
  | JStr s => String.eqb s key
  | _ => false
  end.

(** [key in obj] for a [str] key: a key of a [dict], an element of a
    [list], a substring of a [str]; the other values are not containers. *)
Definition contains (obj : json) (key : string) : result bool :=
  match obj with
  | JObj fields => Returned (bool_decide (is_Some (fields !! key)))
  | JArr items => Returned (existsb (is_str key) items)
  | JStr s => Returned (occurs_in key s)
  | _ => Raised TypeError
  end.

(** [obj[key]] for a [str] key. *)
Definition getitem (obj : json) (key : string) : result json :=
  match obj with
  | JObj fields =>
      match fields !! key with
      | Some v => Returned v
      | None => Raised KeyError
      end
  | _ => Raised TypeError
  end.

Fixpoint chars (s : string) : list json :=
  match s with
  | EmptyString => []
  | String c s' => JStr (String c EmptyString) :: chars s'
  end.

(** [for x in obj]: the elements of a [list], the keys of a [dict], the
    characters of a [str]. *)
Definition iter (obj : json) : result (list json) :=
  match obj with
  | JArr items => Returned items
  | JObj fields => Returned (JStr <$> (map_to_list fields).*1)
  | JStr s => Returned (chars s)
  | _ => Raised TypeError
  end.

(** [len(obj)]. *)
Definition len (obj : json) : result nat :=
  match obj with
  | JArr items => Returned (length items)
  | JObj fields => Returned (size fields)
  | JStr s => Returned (String.length s)
  | _ => Raised TypeError
  end.

End Py.

Import Py.

(** ** The network, as the fetchers see it *)

Module Net.

(** One [urlopen(req, timeout=...)] followed by [json.load(resp)]: it raises
    one of the three classes the retry loops name, or a body arrives, which
    [json.load] parses ([Some doc]) or rejects ([None]). *)
Inductive urlopen_outcome : Type :=
  | HTTPError (code : Z)
  | URLError
  | TimeoutError
  | Body (doc : option json).

(** One [requests.post] or [requests.get]: it raises a [RequestException],
    or a response arrives with a status code and a body that
    [response.json()] parses ([Some doc]) or rejects ([None]). *)
Inductive requests_outcome : Type :=
  | RequestException
  | Response (status_code : Z) (doc : option json).

(** What a fetcher does to the outside: a request sent to a target, a
    [time.sleep(wait)]. *)
Inductive event (U : Type) : Type :=
  | Request (target : U)
  | Sleep (wait : Q).
Arguments Request {U} target.
Arguments Sleep {U} wait.

(** The outcomes that [except (HTTPError, URLError, TimeoutError)] catches. *)
Definition caught (o : urlopen_outcome) : bool :=
  match o with
  | HTTPError _ | URLError | TimeoutError => true
  | Body _ => false
  end.

(** The targets requested and the delays slept, in order. *)
Definition requests {U} (t : list (event U)) : list U :=
  omap (λ e, match e with Request u => Some u | Sleep _ => None end) t.

Definition sleeps {U} (t : list (event U)) : list Q :=
  omap (λ e, match e with Sleep w => Some w | Request _ => None end) t.

(** The trace of a run in which the attempts [attempt], ..., fail. *)
Definition failed_attempts {U} (u : U) (wait : nat → Q) (attempt todo : nat)
    : list (event U) :=
  flat_map (λ k, [Request u; Sleep (wait k)]) (seq attempt todo).

End Net.

Import Net.

(** ** The file system, as the scripts use it *)

Module Files.

(** What a script does to the outside: network events, and documents
    written to a path with [json.dump] or [write_text(json.dumps(...))].
    The document is kept as a value, not as its text. *)
Inductive effect (U : Type) : Type :=
  | Network (e : event U)
  | WriteFile (path : string) (doc : json).
Arguments Network {U} e.
Arguments WriteFile {U} path doc.

(** A fetch run from inside a script. *)
Definition network {U A} (m : io (event U) A) : io (effect U) A :=
  (Network <$> m.1, m.2).

(** The files written and the network events, in order. *)
Definition writes {U} (t : list (effect U)) : list (string * json) :=
  omap (λ e, match e with WriteFile path doc => Some (path, doc) | Network _ => None end) t.

Definition traffic {U} (t : list (effect U)) : list (event U) :=
  omap (λ e, match e with Network e => Some e | WriteFile _ _ => None end) t.

(** The double quote character. *)
Definition dquote : string := String (Ascii.ascii_of_nat 34) EmptyString.

End Files.

Import Files.

(** ** scripts/submarine_cable_ingestor.py *)

Module SubmarineCable.

(** [CABLE_GEO_URL], and [f"{BASE_URL}/cable/{cable_id}.json"], which the
    value of [cable_id] determines. *)
Inductive url : Type :=
  | CABLE_GEO_URL
  | detail_url (cable_id : json).

Definition DETAIL_KEYS : list string :=
  [ "length"; "landing_points"; "owners"; "suppliers"; "rfs"; "rfs_year";
    "is_planned"; "notes"; "url" ]%string.

Definition MAX_WORKERS : Z := 50.
Definition MAX_RETRIES : Z := 3.

(** [1.5 ** attempt], and [wait] with the value [random.uniform(0, 0.3)]
    returned; delays are exact rationals here. *)
Definition backoff (attempt : nat) : Q := ((3 # 2) ^ Z.of_nat attempt)%Q.
Definition wait (attempt : nat) (uniform : Q) : Q := (backoff attempt + uniform)%Q.
Definition jitter_ceiling : Q := 3 # 10.

(** The loop [for attempt in range(1, retries + 1)] from [attempt] on, with
    [todo] iterations left; [net k] is what the [k]-th attempt meets and
    [jitter k] what [random.uniform] returns after it. *)
Fixpoint attempts (u : url) (net : nat → urlopen_outcome) (jitter : nat → Q)
    (attempt todo : nat) : io (event url) json :=
  match todo with
  | O => mret (JObj ∅)
  | S todo' =>
      emit (Request u);;
      match net attempt with
      | Body (Some doc) => mret doc
      | Body None => lift (Raised JSONDecodeError)
      | HTTPError _ | URLError | TimeoutError =>
          emit (Sleep (wait attempt (jitter attempt)));;
          attempts u net jitter (S attempt) todo'
      end
  end.

Definition fetch_json (u : url) (net : nat → urlopen_outcome) (jitter : nat → Q)
    (retries : Z) : io (event url) json :=
  attempts u net jitter 1 (Z.to_nat retries).

(** [[lp.get("name") for lp in ... if lp.get("name")]]. *)
Fixpoint names_of (items : list json) : result (list json) :=
  match items with
  | [] => mret []
  | lp :: rest =>
      name ← get lp "name" JNull;
      names ← names_of rest;
      mret (if truthy name then name :: names else names)
  end.

(** The loop [for key in DETAIL_KEYS] over the keys left, [enriched] being
    the dict built so far. *)
Fixpoint collect (details : json) (keys : list string)
    (enriched : gmap string json) : result (gmap string json) :=
  match keys with
  | [] => mret enriched
  | key :: keys' =>
      present ← contains details key;
      if negb present then collect details keys' enriched
      else if String.eqb key "landing_points" then
        landing_points ← getitem details "landing_points";
        items ← iter landing_points;
        names ← names_of items;
        collect details keys' (<[key := JArr names]> enriched)
      else
        v ← getitem details key;
        collect details keys' (<[key := v]> enriched)
  end.

(** [feature["properties"].update(enriched)]: the new state of the object
    [feature]. *)
Definition update_properties (feature : json) (enriched : gmap string json)
    : result json :=
  properties ← getitem feature "properties";
  match feature, properties with
  | JObj fields, JObj props =>
      mret (JObj (<["properties" := JObj (enriched ∪ props)]> fields))
  | _, _ => Raised AttributeError
  end.

(** [enrich_feature] returns the object it was given: [Returned feature']
    is that object in its state on return.  The only statement that writes
    to it is the last one before [return], so a run that raises leaves it as
    it was. *)
Definition enrich_feature (net : nat → urlopen_outcome) (jitter : nat → Q)
    (feature : json) : io (event url) json :=
  properties ← lift (get feature "properties" (JObj ∅));
  cable_id ← lift (get properties "id" JNull);
  if negb (truthy cable_id) then mret feature
  else
    details ← fetch_json (detail_url cable_id) net jitter MAX_RETRIES;
    if negb (truthy details) then mret feature
    else
      enriched ← lift (collect details DETAIL_KEYS ∅);
      lift (update_properties feature enriched).

(** The state of the object once [enrich_feature] is over. *)
Definition after_enrich (net : nat → urlopen_outcome) (jitter : nat → Q)
    (feature : json) : json :=
  match (enrich_feature net jitter feature).2 with
  | Returned feature' => feature'
  | Raised _ => feature
  end.

(** *** The thread pool of [main]

    [heap] holds the objects of [features], by position; a reference is a
    position.  [net i] and [jitter i] are the oracles of the task submitted
    for position [i].  A task only reads and writes its own object, so the
    tasks are run one after the other, in the order they complete. *)

(** What [future.result()] does: return the reference, or raise again. *)
Definition future : Type := result nat.

(** The task submitted for position [i].  One task is submitted per
    position of [features]; a position outside the list has none. *)
Definition run_task (net : nat → nat → urlopen_outcome) (jitter : nat → nat → Q)
    (heap : list json) (i : nat) : list json * future :=
  match heap !! i with
  | Some feature =>
      match (enrich_feature (net i) (jitter i) feature).2 with
      | Returned feature' => (<[i := feature']> heap, Returned i)
      | Raised e => (heap, Raised e)
      end
  | None => (heap, Raised KeyError)
  end.

(** Every submitted task runs to its end (leaving the [with] block waits
    for them), whatever the other tasks did. *)
Fixpoint executor (net : nat → nat → urlopen_outcome) (jitter : nat → nat → Q)
    (heap : list json) (order : list nat) : list json * list future :=
  match order with
  | [] => (heap, [])
  | i :: rest =>
      let '(heap', fut) := run_task net jitter heap i in
      let '(heap'', futs) := executor net jitter heap' rest in
      (heap'', fut :: futs)
  end.

(** [for i, future in enumerate(as_completed(futures), 1)]. *)
Fixpoint gather (futs : list future) (results : list nat) : result (list nat) :=
  match futs with
  | [] => mret results
  | fut :: rest =>
      feature ← fut;
      gather rest (results ++ [feature])
  end.

(** Lines 73 to 82 of [main]: the value stored in [cable_geo["features"]],
    for the completion order [order]. *)
Definition pipeline (net : nat → nat → urlopen_outcome) (jitter : nat → nat → Q)
    (features : list json) (order : list nat) : result (list json) :=
  let '(heap, futs) := executor net jitter features order in
  match gather futs [] with
  | Returned results => Returned (omap (λ r, heap !! r) results)
  | Raised e => Raised e
  end.

(** [main] as a whole: the document written to [OUTPUT_FILE].
    [base_net] and [base_jitter] are the oracles of the fetch of
    [CABLE_GEO_URL]; the [print] between the two formats
    [len(features)]. *)
Definition main (base_net : nat → urlopen_outcome) (base_jitter : nat → Q)
    (net : nat → nat → urlopen_outcome) (jitter : nat → nat → Q)
    (order : list nat) : result json :=
  match (fetch_json CABLE_GEO_URL base_net base_jitter MAX_RETRIES).2 with
  | Raised e => Raised e
  | Returned cable_geo =>
      features ← get cable_geo "features" (JArr []);
      len features;;
      match iter features with
      | Raised e => Raised e
      | Returned items =>
          match pipeline net jitter items order, cable_geo with
          | Raised e, _ => Raised e
          | Returned results, JObj fields =>
              Returned (JObj (<["features" := JArr results]> fields))
          | Returned _, _ => Raised TypeError
          end
      end
  end.

End SubmarineCable.

(** ** scripts/peeringdb_datasets.py *)

Module PeeringDB.

Definition MAX_RETRIES : Z := 5.

(** [1.5 ** attempt], and [wait] with the value [random.uniform(0, 0.4)]
    returned. *)
Definition backoff (attempt : nat) : Q := ((3 # 2) ^ Z.of_nat attempt)%Q.
Definition wait (attempt : nat) (uniform : Q) : Q := (backoff attempt + uniform)%Q.
Definition jitter_ceiling : Q := 4 # 10.

(** A request carries the url and the headers it was built with. *)
Definition target : Type := string * list (string * string).

Fixpoint attempts (url : string) (headers : list (string * string))
    (net : nat → urlopen_outcome) (jitter : nat → Q)
    (attempt todo : nat) : io (event target) json :=
  match todo with
  | O => mret (JObj ∅)
  | S todo' =>
      emit (Request (url, headers));;
      match net attempt with
      | Body (Some doc) => mret doc
      | Body None => lift (Raised JSONDecodeError)
      | HTTPError _ | URLError | TimeoutError =>
          emit (Sleep (wait attempt (jitter attempt)));;
          attempts url headers net jitter (S attempt) todo'
      end
  end.

Definition fetch_json (url : string) (headers : list (string * string))
    (net : nat → urlopen_outcome) (jitter : nat → Q) (retries : Z)
    : io (event target) json :=
  attempts url headers net jitter 1 (Z.to_nat retries).

(** *** [main] *)

Definition BASE_URL : string := "https://peeringdb.com/api".

Definition ENDPOINTS : list string :=
  [ "org"; "fac"; "net"; "ix"; "campus"; "carrier"; "netfac"; "ixfac";
    "carrierfac" ]%string.

Definition OUT_DIR : string := "downloads".

Definition dataset_url (ep : string) : string := BASE_URL +:+ "/" +:+ ep.

Definition out_path (ep : string) : string :=
  OUT_DIR +:+ "/" +:+ "peeringdb_" +:+ ep +:+ ".json".

(** The loop [for ep in ENDPOINTS] over the datasets left; [world url k]
    is what the [k]-th attempt on [url] meets. *)
Fixpoint download (headers : list (string * string))
    (world : string → nat → urlopen_outcome) (jitter : string → nat → Q)
    (eps : list string) : io (effect target) unit :=
  match eps with
  | [] => mret tt
  | ep :: rest =>
      data ← network (fetch_json (dataset_url ep) headers
                        (world (dataset_url ep)) (jitter (dataset_url ep))
                        MAX_RETRIES);
      emit (WriteFile (out_path ep) data);;
      download headers world jitter rest
  end.

(** How [main] ends: it returns, it raises its own [ValueError] for a
    missing key, or an exception of a fetch goes through it. *)
Inductive ended : Type :=
  | Done
  | MissingKey
  | Escaped (e : exn).

(** [api_key] is [os.environ.get("PEERINGDB")]. *)
Definition main (api_key : option string)
    (world : string → nat → urlopen_outcome) (jitter : string → nat → Q)
    : list (effect target) * ended :=
  match api_key with
  | None => ([], MissingKey)
  | Some key =>
      if String.eqb key "" then ([], MissingKey)
      else
        match download [("Authorization", "Api-Key " +:+ key)]%string
                world jitter ENDPOINTS with
        | (t, Returned _) => (t, Done)
        | (t, Raised e) => (t, Escaped e)
        end
  end.

End PeeringDB.

(** ** scripts/osm_power.py *)

Module OsmPower.

Definition OVERPASS_ENDPOINTS : list string :=
  [ "https://overpass.private.coffee/api/interpreter";
    "https://maps.mail.ru/osm/tools/overpass/api/interpreter";
    "http://overpass-api.de/api/interpreter";
    "https://overpass.osm.jp/api/interpreter" ]%string.

(** A request carries the endpoint and the query posted to it. *)
Definition target : Type := string * string.

(** The loop [for endpoint in OVERPASS_ENDPOINTS] over the endpoints left;
    [net endpoint] is what the request to [endpoint] meets.  [None] is
    Python's [None]. *)
Fixpoint try_endpoints (net : string → requests_outcome) (query : string)
    (endpoints : list string) : io (event target) (option json) :=
  match endpoints with
  | [] => mret None
  | endpoint :: rest =>
      emit (Request (endpoint, query));;
      match net endpoint with
      | RequestException => try_endpoints net query rest
      | Response status_code doc =>
          if negb (status_code =? 200) then try_endpoints net query rest
          else
            match doc with
            | None => try_endpoints net query rest
            | Some data =>
                elements ← lift (get data "elements" (JArr []));
                if negb (truthy elements) then try_endpoints net query rest
                else
                  lift (len elements);;
                  mret (Some data)
            end
      end
  end.

Definition fetch_overpass (net : string → requests_outcome) (query : string)
    : io (event target) (option json) :=
  try_endpoints net query OVERPASS_ENDPOINTS.

(** The outcomes after which the loop goes on to the next endpoint: an
    exception of [requests], a status other than 200, a body that is not
    JSON, a dict whose ["elements"] is missing or falsy. *)
Definition moves_on (o : requests_outcome) : bool :=
  match o with
  | RequestException => true
  | Response status_code doc =>
      negb (status_code =? 200) ||
      match doc with
      | None => true
      | Some (JObj fields) => negb (truthy (default (JArr []) (fields !! "elements")))
      | Some _ => false
      end
  end.

(** *** Queries, conversion and the per-tag pipelines *)

Definition OUTPUT_DIR : string := "downloads".

Definition NODE_POWER_TAGS : list string :=
  [ "transformer"; "switch"; "terminal"; "converter"; "connection";
    "transition"; "compensator"; "inverter"; "cable_distribution";
    "cable_distribution_cabinet" ]%string.

Definition WAY_POWER_TAGS : list string :=
  [ "line"; "minor_line"; "cable"; "switchgear"; "substation" ]%string.

Definition TIMEOUT : Z := 3600.

(** The f-string of [build_node_query]: the timeout and the tag are
    formatted in, the tag between double quotes. *)
Definition build_node_query (tag : string) : string :=
  "[out:json][timeout:" +:+ pretty TIMEOUT +:+ "];node[" +:+ dquote +:+ "power"
    +:+ dquote +:+ "=" +:+ dquote +:+ tag +:+ dquote +:+ "];out meta;".

(** The f-string of [build_way_query]. *)
Definition build_way_query (tag : string) : string :=
  "[out:json][timeout:" +:+ pretty TIMEOUT +:+ "];way[" +:+ dquote +:+ "power"
    +:+ dquote +:+ "=" +:+ dquote +:+ tag +:+ dquote +:+ "];out geom;".

(** [props = feature.get("properties", {}).copy()] followed by the two
    [props.pop(key, None)]: a [dict] is copied and loses the two keys; a
    [list] has [copy] but its [pop] takes one argument at most; the other
    values have no [copy]. *)
Definition clean_properties (feature : json) : result json :=
  properties ← get feature "properties" (JObj ∅);
  match properties with
  | JObj props => mret (JObj (delete "type" (delete "nodes" props)))
  | JArr _ => Raised TypeError
  | _ => Raised AttributeError
  end.

(** The loop [for feature in geojson.get("features", [])] over the
    features left. *)
Fixpoint transform_features (items : list json) : result (list json) :=
  match items with
  | [] => Returned []
  | feature :: rest =>
      match clean_properties feature with
      | Raised e => Raised e
      | Returned props =>
          match get feature "geometry" JNull with
          | Raised e => Raised e
          | Returned geometry =>
              match transform_features rest with
              | Raised e => Raised e
              | Returned features =>
                  Returned (JObj {[ "type" := JStr "Feature";
                                    "properties" := props;
                                    "geometry" := geometry ]} :: features)
              end
          end
      end
  end.

Definition transform_geojson (geojson : json) : result json :=
  features ← get geojson "features" (JArr []);
  match iter features with
  | Raised e => Raised e
  | Returned items =>
      match transform_features items with
      | Raised e => Raised e
      | Returned features' =>
          Returned (JObj {[ "type" := JStr "FeatureCollection";
                            "features" := JArr features' ]})
      end
  end.

(** [os.path.join(OUTPUT_DIR, name)], for a [name] that does not start
    with a slash. *)
Definition output_path (name : string) : string := OUTPUT_DIR +:+ "/" +:+ name.

Section convert.

(** [osm2geojson.json2geojson], which is not part of the repository. *)
Variable json2geojson : json → result json.

Definition convert_to_geojson (osm_data : json) : result json :=
  json2geojson osm_data.

(** [world query endpoint] is what the request of [query] to [endpoint]
    meets. *)
Definition process_node_tag (world : string → string → requests_outcome)
    (tag : string) : io (effect target) bool :=
  let output_file := output_path ("osm_power_node_" +:+ tag +:+ ".geojson") in
  let query := build_node_query tag in
  fetched ← network (fetch_overpass (world query) query);
  match fetched with
  | None => mret false
  | Some osm_data =>
      geojson ← lift (convert_to_geojson osm_data);
      features ← lift (get geojson "features" (JArr []));
      lift (len features);;
      emit (WriteFile output_file geojson);;
      mret true
  end.

Definition process_way_tag (world : string → string → requests_outcome)
    (tag : string) : io (effect target) bool :=
  let output_file := output_path ("osm_power_way_" +:+ tag +:+ ".geojson") in
  let query := build_way_query tag in
  fetched ← network (fetch_overpass (world query) query);
  match fetched with
  | None => mret false
  | Some osm_data =>
      geojson ← lift (convert_to_geojson osm_data);
      geojson ← lift (transform_geojson geojson);
      features ← lift (get geojson "features" (JArr []));
      lift (len features);;
      emit (WriteFile output_file geojson);;
      mret true
  end.

(** One of the two loops of [main]: [results] holds the lists
    [results["success"]] and [results["failed"]]. *)
Fixpoint process_tags (process : string → io (effect target) bool)
    (prefix : string) (tags : list string) (results : list string * list string)
    : io (effect target) (list string * list string) :=
  match tags with
  | [] => ([], Returned results)
  | tag :: rest =>
      mbind (M := io (effect target))
        (λ ok : bool,
           process_tags process prefix rest
             (if ok then (results.1 ++ [prefix +:+ tag], results.2)
              else (results.1, results.2 ++ [prefix +:+ tag])))
        (process tag)
  end.

(** [main]: the two lists of [results] when it ends. *)
Definition main (world : string → string → requests_outcome)
    : io (effect target) (list string * list string) :=
  mbind (M := io (effect target))
    (λ results, process_tags (process_way_tag world) "way:" WAY_POWER_TAGS results)
    (process_tags (process_node_tag world) "node:" NODE_POWER_TAGS ([], [])).

End convert.

End OsmPower.

(** ** scripts/osm_power_node_primary.py *)

Module OsmPowerNodePrimary.

Definition OVERPASS_ENDPOINTS : list string :=
  [ "http://overpass-api.de/api/interpreter";
    "https://maps.mail.ru/osm/tools/overpass/api/interpreter";
    "https://overpass.openstreetmap.ru/api/interpreter";
    "https://overpass.private.coffee/api/interpreter";
    "https://overpass.osm.jp/api/interpreter" ]%string.

(** A request carries the endpoint and the tag its query is built from. *)
Definition target : Type := string * string.

Fixpoint try_endpoints (net : string → requests_outcome) (tag : string)
    (endpoints : list string) : io (event target) (option json) :=
  match endpoints with
  | [] => mret None
  | endpoint :: rest =>
      emit (Request (endpoint, tag));;
      match net endpoint with
      | RequestException => try_endpoints net tag rest
      | Response status_code doc =>
          if negb (status_code =? 200) then try_endpoints net tag rest
          else
            match doc with
            | None => try_endpoints net tag rest
            | Some data =>
                elements ← lift (get data "elements" (JArr []));
                lift (len elements);;
                mret (Some data)
            end
      end
  end.

Definition download_tag (net : string → requests_outcome) (tag : string)
    : io (event target) (option json) :=
  try_endpoints net tag OVERPASS_ENDPOINTS.

(** *** The main block *)

Definition DOWNLOAD_DIR : string := "downloads".

Definition NODE_TAGS : list string :=
  [ "transformer"; "switch"; "terminal"; "converter"; "connection";
    "transition"; "compensator"; "inverter"; "cable_distribution";
    "cable_distribution_cabinet" ]%string.

(** The body of the loop [for tag in NODE_TAGS]: [world tag endpoint] is
    what the request for [tag] to [endpoint] meets. *)
Definition save_tag (world : string → string → requests_outcome) (tag : string)
    : io (effect target) unit :=
  data ← network (download_tag (world tag) tag);
  match data with
  | Some data =>
      if truthy data
      then emit (WriteFile (DOWNLOAD_DIR +:+ "/" +:+ "osm_power_node_" +:+ tag
                              +:+ ".json") data)
      else mret tt
  | None => mret tt
  end.

Fixpoint save_tags (world : string → string → requests_outcome)
    (tags : list string) : io (effect target) unit :=
  match tags with
  | [] => mret tt
  | tag :: rest => save_tag world tag;; save_tags world rest
  end.

Definition main (world : string → string → requests_outcome)
    : io (effect target) unit :=
  save_tags world NODE_TAGS.

End OsmPowerNodePrimary.

(** ** The spec's vocabulary *)

Module Spec.

Import SubmarineCable.



(** A field of a BaseItem, and its identity: the value [enrich_feature]
    builds the detail request from. *)
Definition field (key : string) (item : json) : option json :=
  match item with
  | JObj fields => fields !! key
  | _ => None
  end.

Definition identity (item : json) : result json :=
  properties ← get item "properties" (JObj ∅);
  get properties "id" JNull.

(** The truthy names of a list of sub-entities. *)
Definition names (entities : list (gmap string json)) : list json :=
  List.filter truthy ((λ entity, default JNull (entity !! "name")) <$> entities).

(** The items of a Collection after the pipeline has run, by position. *)
Definition enriched (net : nat → nat → urlopen_outcome) (jitter : nat → nat → Q)
    (features : list json) : list json :=
  imap (λ i feature, after_enrich (net i) (jitter i) feature) features.




(** The claim that a list-valued field of a detail response that is in the
    allow-list is merged as the names of its entries. *)
Definition list_fields_projected : Prop :=
  ∀ fields props cable_id details key entities jitter,
    fields !! "properties" = Some (JObj props) →
    props !! "id" = Some cable_id →
    truthy cable_id = true →
    key ∈ DETAIL_KEYS →
    details !! key = Some (JArr (JObj <$> entities)) →
    ∃ props',
      field "properties"
        (after_enrich (λ _, Body (Some (JObj details))) jitter (JObj fields))
        = Some (JObj props') ∧
      props' !! key = Some (JArr (names entities)).

(** The claim that a bulk enumeration never returns a document whose
    results are empty, for [download_tag]. *)
Definition empty_result_refused : Prop :=
  ∀ net tag fields,
    (∀ endpoint, net endpoint = Response 200 (Some (JObj fields))) →
    fields !! "elements" = Some (JArr []) →
    (OsmPowerNodePrimary.download_tag net tag).2 ≠ Returned (Some (JObj fields)).

End Spec.

(** ** Vocabulary of the further properties *)

Module Props.

(** The outcomes after which [download_tag] goes on to the next endpoint:
    an exception of [requests], a status other than 200, a body that is
    not JSON. *)
Definition skipped (o : requests_outcome) : bool :=
  match o with
  | RequestException => true
  | Response status_code doc =>
      negb (status_code =? 200) || match doc with None => true | Some _ => false end
  end.

(** What [transform_geojson] makes of a feature that is a dict whose
    properties are a dict or missing. *)
Definition clean_feature (feature : gmap string json) : json :=
  JObj {[ "type" := JStr "Feature";
          "properties" :=
            JObj (delete "type" (delete "nodes"
                    match feature !! "properties" with
                    | Some (JObj props) => props
                    | _ => ∅
                    end));
          "geometry" := default JNull (feature !! "geometry") ]}.

(** The properties of a feature are a dict, missing, or null. *)
Definition properties_shape (allow_null : bool) (feature : gmap string json) : Prop :=
  match feature !! "properties" with
  | None | Some (JObj _) => True
  | Some JNull => allow_null = true
  | Some _ => False
  end.

(** A feature as [transform_geojson] builds them: the three keys, and
    properties without the two keys it removes. *)
Definition cleaned (feature : json) : Prop :=
  ∃ props geometry,
    feature = JObj {[ "type" := JStr "Feature";
                      "properties" := JObj props;
                      "geometry" := geometry ]} ∧
    props !! "nodes" = None ∧ props !! "type" = None.

(** What [main] of [peeringdb_datasets.py] fetches for a dataset, when
    the fetch returns. *)
Definition dataset (key : string) (world : string → nat → urlopen_outcome)
    (jitter : string → nat → Q) (ep : string) : json :=
  match (PeeringDB.fetch_json (PeeringDB.dataset_url ep)
           [("Authorization", "Api-Key " +:+ key)]%string
           (world (PeeringDB.dataset_url ep)) (jitter (PeeringDB.dataset_url ep))
           PeeringDB.MAX_RETRIES).2 with
  | Returned data => data
  | Raised _ => JNull
  end.

(** The labels [main] of [osm_power.py] files under success or failed. *)
Definition labels : list string :=
  (String.append "node:" <$> OsmPower.NODE_POWER_TAGS)
    ++ (String.append "way:" <$> OsmPower.WAY_POWER_TAGS).

End Props.

(** * Properties *)

(** ** The monad *)

Lemma emit_bind {E A} (e : E) (m : io E A) : (emit e;; m) = (e :: m.1, m.2).
Proof. by destruct m as [t r]. Qed.

Lemma lift_returned_bind {E A B} (a : A) (k : A → io E B) :
  (lift (Returned a) ≫= k) = k a.
Proof. unfold lift, mbind, io_bind. by destruct (k a). Qed.

(** ** The retry loop of [fetch_json] *)


Lemma sleeps_failed_attempts {U} (u : U) wait attempt todo :
  sleeps (failed_attempts u wait attempt todo) = wait <$> seq attempt todo.
Proof.
  revert attempt. induction todo as [|todo IH]; intros attempt; [done|].
  cbn. f_equal. apply IH.
Qed.

Section submarine_fetch.
Import SubmarineCable.
Variables (u : url) (net : nat → urlopen_outcome) (jitter : nat → Q).

Lemma submarine_attempts_exhausted todo : ∀ attempt,
  (∀ k, (attempt ≤ k < attempt + todo)%nat → caught (net k) = true) →
  attempts u net jitter attempt todo =
    (failed_attempts u (λ k, wait k (jitter k)) attempt todo, Returned (JObj ∅)).
Proof.
  induction todo as [|todo IH]; intros attempt Hall; [done|].
  cbn [attempts]. rewrite emit_bind.
  pose proof (Hall attempt ltac:(lia)) as Hc.
  destruct (net attempt) as [code| | |doc]; try discriminate Hc;
    rewrite emit_bind, IH by (intros k ?; apply Hall; lia); done.
Qed.


Lemma submarine_attempts_malformed todo attempt :
  net attempt = Body None →
  attempts u net jitter attempt (S todo) = ([Request u], Raised JSONDecodeError).
Proof. intros Hn. cbn [attempts]. by rewrite emit_bind, Hn. Qed.

Lemma submarine_attempts_parsed todo attempt doc :
  net attempt = Body (Some doc) →
  attempts u net jitter attempt (S todo) = ([Request u], Returned doc).
Proof. intros Hn. cbn [attempts]. by rewrite emit_bind, Hn. Qed.
End submarine_fetch.

Section peeringdb_fetch.
Import PeeringDB.
Variables (url : string) (headers : list (string * string)).
Variables (net : nat → urlopen_outcome) (jitter : nat → Q).



Lemma peeringdb_attempts_malformed todo attempt :
  net attempt = Body None →
  attempts url headers net jitter attempt (S todo)
    = ([Request (url, headers)], Raised JSONDecodeError).
Proof. intros Hn. cbn [attempts]. by rewrite emit_bind, Hn. Qed.
End peeringdb_fetch.

(** ** The endpoint loop of [fetch_overpass] *)

Lemma try_endpoints_exhausted net query endpoints :
  (∀ e, e ∈ endpoints → OsmPower.moves_on (net e) = true) →
  OsmPower.try_endpoints net query endpoints =
    ((λ e, Request (e, query)) <$> endpoints, Returned None).
Proof.
  induction endpoints as [|endpoint rest IH]; intros Hall; [done|].
  cbn [OsmPower.try_endpoints]. rewrite emit_bind.
  pose proof (Hall endpoint ltac:(left)) as Hm.
  rewrite IH in * by (intros e He; apply Hall; by right).
  unfold OsmPower.moves_on in Hm.
  destruct (net endpoint) as [|status_code [data|]]; [done| |];
    destruct (status_code =? 200); try done.
  destruct data; try discriminate Hm. cbn in Hm |- *. by rewrite Hm.
Qed.



(** ** The fetchers *)




(** C3, at the failing input: whatever the number of retries allowed, a
    body that [json.load] rejects ends [fetch_json] at once, the decode
    error raised to the caller after one request and no sleep, in both
    scripts; in [main] it comes out of [future.result()] and ends the
    run. *)
Theorem malformed_body_escapes u jitter url headers (retries : positive) :
  SubmarineCable.fetch_json u (λ _, Body None) jitter (Z.pos retries)
    = ([Request u], Raised JSONDecodeError) ∧
  PeeringDB.fetch_json url headers (λ _, Body None) jitter (Z.pos retries)
    = ([Request (url, headers)], Raised JSONDecodeError) ∧
  SubmarineCable.pipeline (λ _ _, Body None) (λ _, jitter)
    [JObj {[ "properties" := JObj {[ "id" := JStr "a" ]} ]}] [0%nat]
    = Raised JSONDecodeError.
Proof.
  unfold SubmarineCable.fetch_json, PeeringDB.fetch_json.
  destruct (Pos2Nat.is_succ retries) as [todo Htodo].
  rewrite Z2Nat.inj_pos, Htodo. split_and!.
  - by apply submarine_attempts_malformed.
  - by apply peeringdb_attempts_malformed.
  - done.
Qed.





(** ** [enrich_feature] *)

Lemma io_bind_snd {E A B} (m : io E A) (k : A → io E B) :
  (m ≫= k).2 = match m.2 with
               | Returned a => (k a).2
               | Raised e => Raised e
               end.
Proof. destruct m as [t [a|e]]; [|done]. cbn. by destruct (k a). Qed.

Lemma result_bind_inv {A B} (m : result A) (k : A → result B) b :
  (m ≫= k) = Returned b → ∃ a, m = Returned a ∧ k a = Returned b.
Proof. destruct m as [a|e]; [|done]. intros Hk. by exists a. Qed.

Lemma identity_truthy fields cable_id :
  Spec.identity (JObj fields) = Returned cable_id →
  truthy cable_id = true →
  ∃ props, fields !! "properties" = Some (JObj props) ∧
           props !! "id" = Some cable_id.
Proof.
  unfold Spec.identity. cbn.
  destruct (fields !! "properties") as [[| | | | | |props]|] eqn:Hp; cbn; try done.
  - destruct (props !! "id") as [v|] eqn:Hid; cbn.
    + intros [= ->] _. by exists props.
    + by intros [= <-].
  - rewrite lookup_empty. cbn. by intros [= <-].
Qed.

Section enrich.
Import SubmarineCable.
Variables (net : nat → urlopen_outcome) (jitter : nat → Q).

(** Without a truthy identity, no request is made and the object is
    returned as it is. *)
Lemma enrich_no_identity feature cable_id :
  Spec.identity feature = Returned cable_id →
  truthy cable_id = false →
  enrich_feature net jitter feature = ([], Returned feature).
Proof.
  unfold Spec.identity, enrich_feature. intros Hid Hfalsy.
  destruct (get feature "properties" (JObj ∅)) as [properties|e]; [|done].
  cbn in Hid. rewrite lift_returned_bind, Hid, lift_returned_bind.
  by rewrite Hfalsy.
Qed.

(** The run as a function of the identity and of what the fetch gives. *)
Lemma enrich_with_identity feature cable_id :
  Spec.identity feature = Returned cable_id →
  truthy cable_id = true →
  enrich_feature net jitter feature =
    (details ← fetch_json (detail_url cable_id) net jitter MAX_RETRIES;
     if negb (truthy details) then mret feature
     else enriched ← lift (collect details DETAIL_KEYS ∅);
          lift (update_properties feature enriched)).
Proof.
  unfold Spec.identity, enrich_feature. intros Hid Htruthy.
  destruct (get feature "properties" (JObj ∅)) as [properties|e]; [|done].
  cbn in Hid. rewrite lift_returned_bind, Hid, lift_returned_bind.
  by rewrite Htruthy.
Qed.

Lemma enrich_raises_early feature e :
  Spec.identity feature = Raised e →
  enrich_feature net jitter feature = ([], Raised e).
Proof.
  unfold Spec.identity, enrich_feature. intros Hid.
  destruct (get feature "properties" (JObj ∅)) as [properties|e']; cbn in Hid.
  - by rewrite lift_returned_bind, Hid.
  - by injection Hid as ->.
Qed.

(** What a run that returns has done to the object: nothing, or the
    merge of the collected fields into its properties. *)
Lemma enrich_returned feature feature' :
  (enrich_feature net jitter feature).2 = Returned feature' →
  feature' = feature ∨
  ∃ fields props cable_id details enriched,
    feature = JObj fields ∧
    fields !! "properties" = Some (JObj props) ∧
    props !! "id" = Some cable_id ∧ truthy cable_id = true ∧
    (fetch_json (detail_url cable_id) net jitter MAX_RETRIES).2
      = Returned details ∧
    truthy details = true ∧
    collect details DETAIL_KEYS ∅ = Returned enriched ∧
    feature' = JObj (<["properties" := JObj (enriched ∪ props)]> fields).
Proof.
  destruct (Spec.identity feature) as [cable_id|e] eqn:Hid.
  2: { by rewrite (enrich_raises_early _ _ Hid). }
  destruct (truthy cable_id) eqn:Htruthy.
  2: { rewrite (enrich_no_identity _ _ Hid Htruthy). intros [= <-]. by left. }
  rewrite (enrich_with_identity _ _ Hid Htruthy), io_bind_snd.
  destruct (fetch_json _ net jitter MAX_RETRIES).2 as [details|e] eqn:Hf; [|done].
  destruct (truthy details) eqn:Hd; cbn [negb].
  2: { intros [= <-]. by left. }
  rewrite io_bind_snd. cbn [lift snd].
  destruct (collect details DETAIL_KEYS ∅) as [enriched|e] eqn:Hc; [|done].
  destruct feature as [| | | | | |fields]; try done.
  destruct (identity_truthy _ _ Hid Htruthy) as (props & Hp & Hi).
  unfold update_properties. cbn. rewrite Hp. cbn.
  intros [= <-]. right. by exists fields, props, cable_id, details, enriched.
Qed.
End enrich.

(** ** The merge: [collect] and [update] *)

Lemma names_of_objects entities :
  SubmarineCable.names_of (JObj <$> entities) = Returned (Spec.names entities).
Proof.
  induction entities as [|entity rest IH]; [done|].
  cbn. rewrite IH. cbn. unfold Spec.names. cbn.
  by destruct (truthy (default JNull (entity !! "name"))).
Qed.

Section collect.
Import SubmarineCable.

Ltac collect_step details key Hc :=
  cbn [collect] in Hc;
  apply result_bind_inv in Hc as (present & Hpresent & Hc);
  destruct present; cbn [negb] in Hc;
  [ destruct (String.eqb key "landing_points") eqn:Hlp;
    [ apply result_bind_inv in Hc as (lps & Hlps & Hc);
      apply result_bind_inv in Hc as (items & Hitems & Hc);
      apply result_bind_inv in Hc as (found & Hfound & Hc)
    | apply result_bind_inv in Hc as (v & Hv & Hc) ]
  | ].

(** Only the keys of the loop are written. *)
Lemma collect_frame details keys : ∀ enriched enriched',
  collect details keys enriched = Returned enriched' →
  ∀ k, k ∉ keys → enriched' !! k = enriched !! k.
Proof.
  induction keys as [|key keys IH]; intros enriched enriched' Hc k Hk.
  { by injection Hc as ->. }
  apply not_elem_of_cons in Hk as [Hne Hk].
  collect_step details key Hc;
    rewrite (IH _ _ Hc k Hk); try done; by rewrite lookup_insert_ne.
Qed.

(** What the loop leaves under each key, for a detail response that is a
    dict. *)
Lemma collect_lookup details keys : ∀ enriched enriched',
  collect (JObj details) keys enriched = Returned enriched' →
  ∀ k,
    (details !! k = None → enriched' !! k = enriched !! k) ∧
    (k ∈ keys → k ≠ "landing_points"%string →
       ∀ v, details !! k = Some v → enriched' !! k = Some v) ∧
    (k ∈ keys → k = "landing_points"%string →
       ∀ entities, details !! k = Some (JArr (JObj <$> entities)) →
         enriched' !! k = Some (JArr (Spec.names entities))).
Proof.
  induction keys as [|key keys IH]; intros enriched enriched' Hc k.
  { injection Hc as ->. split_and!; [done| |]; intros Hk; by apply elem_of_nil in Hk. }
  collect_step (JObj details) key Hc.
  - (* key is "landing_points" and is in the response *)
    apply String.eqb_eq in Hlp as ->.
    destruct (IH _ _ Hc k) as (Habs & Hcopy & Hproj).
    cbn in Hlps. destruct (details !! "landing_points") as [v0|] eqn:Hd; [|done].
    injection Hlps as <-.
    split_and!.
    + intros Hnone. rewrite Habs by done. apply lookup_insert_ne. congruence.
    + intros Hin Hne v Hv. apply Hcopy; [|done..].
      apply elem_of_cons in Hin as [?|?]; done.
    + intros _ -> entities He. rewrite Hd in He. injection He as ->.
      cbn in Hitems. injection Hitems as <-.
      rewrite names_of_objects in Hfound. injection Hfound as <-.
      destruct (decide ("landing_points"%string ∈ keys)) as [Hin|Hout].
      * by apply Hproj.
      * rewrite (collect_frame _ _ _ _ Hc _ Hout). apply lookup_insert_eq.
  - (* another key, in the response *)
    apply String.eqb_neq in Hlp.
    destruct (IH _ _ Hc k) as (Habs & Hcopy & Hproj).
    cbn in Hv. destruct (details !! key) as [v0|] eqn:Hd; [|done].
    injection Hv as <-.
    split_and!.
    + intros Hnone. rewrite Habs by done. apply lookup_insert_ne. congruence.
    + intros Hin Hne v Hv. apply elem_of_cons in Hin as [->|Hin]; [|by apply Hcopy].
      rewrite Hd in Hv. injection Hv as ->.
      destruct (decide (key ∈ keys)) as [Hin|Hout].
      * by apply Hcopy.
      * rewrite (collect_frame _ _ _ _ Hc _ Hout). apply lookup_insert_eq.
    + intros Hin -> entities He. apply Hproj; [|done..].
      apply elem_of_cons in Hin as [?|?]; done.
  - (* key is not in the response *)
    cbn in Hpresent. injection Hpresent as Hpresent.
    apply bool_decide_eq_false in Hpresent.
    destruct (IH _ _ Hc k) as (Habs & Hcopy & Hproj).
    split_and!; [done| |].
    + intros Hin Hne v Hv. apply elem_of_cons in Hin as [->|Hin]; [|by apply Hcopy].
      destruct Hpresent. by rewrite Hv.
    + intros Hin Heq entities He. apply elem_of_cons in Hin as [->|Hin]; [|by apply Hproj].
      destruct Hpresent. by rewrite He.
Qed.

(** The loop returns when the landing points, if any, are a list of
    dicts. *)
Lemma collect_returns details keys : ∀ enriched,
  (∀ v, details !! "landing_points" = Some v →
        ∃ entities, v = JArr (JObj <$> entities)) →
  ∃ enriched', collect (JObj details) keys enriched = Returned enriched'.
Proof.
  induction keys as [|key keys IH]; intros enriched Hshape; [by eexists|].
  cbn [collect contains]. cbn.
  destruct (details !! key) as [v|] eqn:Hd.
  - rewrite bool_decide_eq_true_2 by done. cbn.
    destruct (String.eqb key "landing_points") eqn:Hlp.
    + apply String.eqb_eq in Hlp as ->.
      destruct (Hshape _ Hd) as [entities ->].
      rewrite Hd. cbn. rewrite names_of_objects. cbn. by apply IH.
    + by apply IH.
  - rewrite bool_decide_eq_false_2 by (by intros [? ?]). cbn. by apply IH.
Qed.
End collect.

Lemma id_not_detail_key : "id"%string ∉ SubmarineCable.DETAIL_KEYS.
Proof. by apply (bool_decide_unpack _). Qed.

Lemma landing_points_detail_key :
  "landing_points"%string ∈ SubmarineCable.DETAIL_KEYS.
Proof. by apply (bool_decide_unpack _). Qed.

(** C10: a feature whose identity lookup gives a falsy value (no
    properties, no id, or an id that is null, 0, the empty string or any
    other falsy value) is returned as it is, and no request is made. *)
Theorem falsy_identity_passes_through net jitter fields :
  (fields !! "properties" = None ∨
   ∃ props, fields !! "properties" = Some (JObj props) ∧
     (props !! "id" = None ∨
      ∃ v, props !! "id" = Some v ∧
           (v = JNull ∨ v = JInt 0 ∨ v = JStr "" ∨ truthy v = false))) →
  SubmarineCable.enrich_feature net jitter (JObj fields)
    = ([], Returned (JObj fields)).
Proof.
  intros Hcases.
  assert (∃ cable_id, Spec.identity (JObj fields) = Returned cable_id ∧
                      truthy cable_id = false) as (cable_id & Hid & Hfalsy).
  { unfold Spec.identity. cbn.
    destruct Hcases as [Hp | (props & Hp & [Hi | (v & Hi & Hv)])];
      rewrite Hp; cbn; [rewrite lookup_empty|rewrite Hi..]; cbn.
    - by exists JNull.
    - by exists JNull.
    - exists v. split; [done|]. by destruct Hv as [-> | [-> | [-> | Hv]]]. }
  by apply enrich_no_identity with cable_id.
Qed.

Lemma falsy_identity_passes_through_witness :
  SubmarineCable.enrich_feature (λ _, Body None) (λ _, 0%Q)
    (JObj {[ "properties" := JObj {[ "id" := JInt 0 ]} ]})
  = ([], Returned (JObj {[ "properties" := JObj {[ "id" := JInt 0 ]} ]})).
Proof.
  apply falsy_identity_passes_through.
  right. exists {[ "id" := JInt 0 ]}. split; [reflexivity|].
  right. exists (JInt 0). split; [reflexivity|]. right. left. reflexivity.
Defined.

(** C9: whatever the detail response, and whether [enrich_feature] returns
    or raises, the object keeps every field other than [properties], its
    geometry among them, and its identity; inside [properties], every key
    outside [DETAIL_KEYS] keeps its value. *)
Theorem enrichment_frame net jitter feature :
  (∀ key, key ≠ "properties"%string →
     Spec.field key (SubmarineCable.after_enrich net jitter feature)
       = Spec.field key feature) ∧
  Spec.field "geometry" (SubmarineCable.after_enrich net jitter feature)
    = Spec.field "geometry" feature ∧
  Spec.identity (SubmarineCable.after_enrich net jitter feature)
    = Spec.identity feature ∧
  (∀ props, Spec.field "properties" feature = Some (JObj props) →
     ∃ props',
       Spec.field "properties" (SubmarineCable.after_enrich net jitter feature)
         = Some (JObj props') ∧
       ∀ k, k ∉ SubmarineCable.DETAIL_KEYS → props' !! k = props !! k).
Proof.
  unfold SubmarineCable.after_enrich.
  destruct (SubmarineCable.enrich_feature net jitter feature).2
    as [feature'|e] eqn:Hrun.
  2: { split_and!; try done. intros props Hp. by exists props. }
  apply enrich_returned in Hrun
    as [-> | (fields & props & cable_id & details & enriched & -> & Hp & Hi
              & Htruthy & Hfetch & Hd & Hc & ->)].
  { split_and!; try done. intros props Hp. by exists props. }
  assert (∀ k, k ∉ SubmarineCable.DETAIL_KEYS → (enriched ∪ props) !! k = props !! k)
    as Hframe.
  { intros k Hk. apply lookup_union_r.
    by rewrite (collect_frame _ _ _ _ Hc k Hk). }
  split_and!.
  - intros key Hkey. cbn. by apply lookup_insert_ne.
  - cbn. by apply lookup_insert_ne.
  - unfold Spec.identity. cbn. rewrite lookup_insert_eq, Hp. cbn.
    by rewrite (Hframe _ id_not_detail_key).
  - intros props0 Hp0. cbn in Hp0. rewrite Hp in Hp0. injection Hp0 as <-.
    exists (enriched ∪ props). split; [|done]. cbn. apply lookup_insert_eq.
Qed.

Lemma enrichment_frame_witness :
  Spec.field "geometry"
    (SubmarineCable.after_enrich
       (λ _, Body (Some (JObj {[ "length" := JStr "9 km"; "geometry" := JNull ]})))
       (λ _, 0%Q)
       (JObj {[ "geometry" := JArr [JInt 1; JInt 2];
                "properties" := JObj {[ "id" := JStr "a" ]} ]}))
  = Some (JArr [JInt 1; JInt 2]).
Proof.
  destruct (enrichment_frame
    (λ _, Body (Some (JObj {[ "length" := JStr "9 km"; "geometry" := JNull ]})))
    (λ _, 0%Q)
    (JObj {[ "geometry" := JArr [JInt 1; JInt 2];
             "properties" := JObj {[ "id" := JStr "a" ]} ]}))
    as (Hfields & _).
  rewrite (Hfields "geometry"%string); [reflexivity|discriminate].
Defined.

(** C7, as stated, fails: a list-valued field other than [landing_points]
    is merged as it is, not as the names of its entries. *)
Lemma list_fields_not_all_projected : ¬ Spec.list_fields_projected.
Proof.
  intros Hclaim.
  destruct (Hclaim
    {[ "properties" := JObj {[ "id" := JStr "a" ]} ]}
    {[ "id" := JStr "a" ]} (JStr "a")
    {[ "owners" := JArr [JObj {[ "name" := JStr "O"; "id" := JStr "o" ]}] ]}
    "owners"%string
    [ {[ "name" := JStr "O"; "id" := JStr "o" ]} ]
    (λ _, 0%Q))
    as (props' & Hprops & Howners); try reflexivity.
  { by apply (bool_decide_unpack _). }
  apply (f_equal (λ o, match o with
                       | Some (JObj m) => m !! "owners"
                       | _ => None
                       end)) in Hprops.
  rewrite Howners in Hprops. vm_compute in Hprops. discriminate Hprops.
Qed.

(** C7, amended: the merge writes into [properties] only keys of
    [DETAIL_KEYS] that the detail response has; a key that the response
    lacks keeps its value; [landing_points] is merged as the list of the
    truthy names of its entries; every other field of the allow-list is
    merged as the response has it, list or not. *)
Theorem merge_allow_list net jitter fields props cable_id details tr :
  fields !! "properties" = Some (JObj props) →
  props !! "id" = Some cable_id →
  truthy cable_id = true →
  SubmarineCable.fetch_json (SubmarineCable.detail_url cable_id) net jitter
    SubmarineCable.MAX_RETRIES = (tr, Returned (JObj details)) →
  truthy (JObj details) = true →
  (∀ v, details !! "landing_points" = Some v →
        ∃ entities, v = JArr (JObj <$> entities)) →
  ∃ props',
    SubmarineCable.enrich_feature net jitter (JObj fields)
      = (tr, Returned (JObj (<["properties" := JObj props']> fields))) ∧
    (∀ k, k ∉ SubmarineCable.DETAIL_KEYS → props' !! k = props !! k) ∧
    (∀ k, details !! k = None → props' !! k = props !! k) ∧
    (∀ k v, k ∈ SubmarineCable.DETAIL_KEYS → k ≠ "landing_points"%string →
            details !! k = Some v → props' !! k = Some v) ∧
    (∀ entities,
       details !! "landing_points" = Some (JArr (JObj <$> entities)) →
       props' !! "landing_points" = Some (JArr (Spec.names entities))).
Proof.
  intros Hp Hi Htruthy Hfetch Hd Hshape.
  assert (Spec.identity (JObj fields) = Returned cable_id) as Hid.
  { unfold Spec.identity. cbn. rewrite Hp. cbn. by rewrite Hi. }
  destruct (collect_returns details SubmarineCable.DETAIL_KEYS ∅ Hshape)
    as [enriched Hc].
  exists (enriched ∪ props). split_and!.
  - rewrite (enrich_with_identity _ _ _ _ Hid Htruthy), Hfetch.
    cbn [mbind io_bind]. rewrite Hd. cbn [negb]. rewrite Hc.
    rewrite lift_returned_bind. unfold SubmarineCable.update_properties.
    cbn. rewrite Hp. cbn. by rewrite app_nil_r.
  - intros k Hk. apply lookup_union_r.
    by rewrite (collect_frame _ _ _ _ Hc k Hk).
  - intros k Hk. apply lookup_union_r.
    destruct (collect_lookup _ _ _ _ Hc k) as (Habs & _). by rewrite Habs.
  - intros k v Hin Hne Hk. apply lookup_union_Some_l.
    destruct (collect_lookup _ _ _ _ Hc k) as (_ & Hcopy & _). by apply Hcopy.
  - intros entities Hk. apply lookup_union_Some_l.
    destruct (collect_lookup _ _ _ _ Hc "landing_points"%string) as (_ & _ & Hproj).
    apply Hproj; [apply landing_points_detail_key|done..].
Qed.

Lemma merge_allow_list_witness :
  ∃ props',
    SubmarineCable.enrich_feature
      (λ _, Body (Some (JObj
         {[ "owners" := JArr [JObj {[ "name" := JStr "O" ]}];
            "landing_points" :=
              JArr [JObj {[ "name" := JStr "P"; "id" := JStr "p" ]};
                    JObj {[ "id" := JStr "q" ]}];
            "secret" := JInt 7 ]})))
      (λ _, 0%Q)
      (JObj {[ "properties" := JObj {[ "id" := JStr "a"; "name" := JStr "A" ]} ]})
    = ([Request (SubmarineCable.detail_url (JStr "a"))],
       Returned (JObj {[ "properties" := JObj props' ]})) ∧
    props' !! "landing_points" = Some (JArr [JStr "P"]) ∧
    props' !! "owners" = Some (JArr [JObj {[ "name" := JStr "O" ]}]) ∧
    props' !! "secret" = None ∧
    props' !! "name" = Some (JStr "A").
Proof.
  destruct (merge_allow_list
    (λ _, Body (Some (JObj
       {[ "owners" := JArr [JObj {[ "name" := JStr "O" ]}];
          "landing_points" :=
            JArr [JObj {[ "name" := JStr "P"; "id" := JStr "p" ]};
                  JObj {[ "id" := JStr "q" ]}];
          "secret" := JInt 7 ]})))
    (λ _, 0%Q)
    {[ "properties" := JObj {[ "id" := JStr "a"; "name" := JStr "A" ]} ]}
    {[ "id" := JStr "a"; "name" := JStr "A" ]}
    (JStr "a")
    {[ "owners" := JArr [JObj {[ "name" := JStr "O" ]}];
       "landing_points" :=
         JArr [JObj {[ "name" := JStr "P"; "id" := JStr "p" ]};
               JObj {[ "id" := JStr "q" ]}];
       "secret" := JInt 7 ]}
    [Request (SubmarineCable.detail_url (JStr "a"))])
    as (props' & Hrun & Hallow & Habsent & Hcopy & Hproj);
    try reflexivity.
  { intros v Hv. vm_compute in Hv. injection Hv as <-.
    exists [ {[ "name" := JStr "P"; "id" := JStr "p" ]}; {[ "id" := JStr "q" ]} ].
    reflexivity. }
  exists props'. split_and!.
  - exact Hrun.
  - rewrite (Hproj [ {[ "name" := JStr "P"; "id" := JStr "p" ]};
                     {[ "id" := JStr "q" ]} ]) by reflexivity.
    reflexivity.
  - apply Hcopy; [by apply (bool_decide_unpack _)|discriminate|reflexivity].
  - rewrite Hallow; [reflexivity|by apply (bool_decide_unpack _)].
  - rewrite Habsent; reflexivity.
Defined.

(** ** Empty results *)

(** C6, as stated, fails: [download_tag], a bulk enumeration, returns a
    document whose [elements] is empty. *)
Lemma download_tag_returns_empty_result : ¬ Spec.empty_result_refused.
Proof.
  intros Hclaim.
  apply (Hclaim (λ _, Response 200 (Some (JObj {[ "elements" := JArr [] ]})))
           "switch"%string {[ "elements" := JArr [] ]}); reflexivity.
Qed.

(** C6, amended: on a response with status 200 whose body is a dict with
    [elements] empty or missing, [fetch_overpass] goes on to the next
    endpoint, while [download_tag] returns that document; [fetch_json]
    returns whatever document parses, empty or not. *)
Theorem empty_result_policy net endpoint rest fields query tag u urlnet jitter retries doc :
  net endpoint = Response 200 (Some (JObj fields)) →
  (fields !! "elements" = None ∨ fields !! "elements" = Some (JArr [])) →
  urlnet 1%nat = Body (Some doc) →
  0 < retries →
  OsmPower.try_endpoints net query (endpoint :: rest)
    = (Request (endpoint, query) :: (OsmPower.try_endpoints net query rest).1,
       (OsmPower.try_endpoints net query rest).2) ∧
  OsmPowerNodePrimary.try_endpoints net tag (endpoint :: rest)
    = ([Request (endpoint, tag)], Returned (Some (JObj fields))) ∧
  SubmarineCable.fetch_json u urlnet jitter retries = ([Request u], Returned doc).
Proof.
  intros Hnet Hempty Hurl Hretries. split_and!.
  - cbn [OsmPower.try_endpoints]. rewrite emit_bind, Hnet. cbn.
    destruct Hempty as [-> | ->]; cbn;
      by destruct (OsmPower.try_endpoints net query rest).
  - cbn [OsmPowerNodePrimary.try_endpoints]. rewrite emit_bind, Hnet. cbn.
    by destruct Hempty as [-> | ->].
  - unfold SubmarineCable.fetch_json.
    destruct (Z.to_nat retries) as [|todo] eqn:Hn; [lia|].
    by apply submarine_attempts_parsed.
Qed.

Lemma empty_result_policy_witness :
  OsmPower.fetch_overpass
    (λ _, Response 200 (Some (JObj {[ "elements" := JArr [] ]}))) "q"
    = ((λ e, Request (e, "q"%string)) <$> OsmPower.OVERPASS_ENDPOINTS,
       Returned None) ∧
  OsmPowerNodePrimary.download_tag
    (λ _, Response 200 (Some (JObj {[ "elements" := JArr [] ]}))) "switch"
    = ([Request ("http://overpass-api.de/api/interpreter"%string, "switch"%string)],
       Returned (Some (JObj {[ "elements" := JArr [] ]}))) ∧
  SubmarineCable.fetch_json SubmarineCable.CABLE_GEO_URL
    (λ _, Body (Some (JObj ∅))) (λ _, 0%Q) 3
    = ([Request SubmarineCable.CABLE_GEO_URL], Returned (JObj ∅)).
Proof.
  destruct (empty_result_policy
    (λ _, Response 200 (Some (JObj {[ "elements" := JArr [] ]})))
    "http://overpass-api.de/api/interpreter"
    [ "https://maps.mail.ru/osm/tools/overpass/api/interpreter";
      "https://overpass.openstreetmap.ru/api/interpreter";
      "https://overpass.private.coffee/api/interpreter";
      "https://overpass.osm.jp/api/interpreter" ]%string
    {[ "elements" := JArr [] ]} "q" "switch"
    SubmarineCable.CABLE_GEO_URL (λ _, Body (Some (JObj ∅))) (λ _, 0%Q) 3 (JObj ∅))
    as (_ & Hdownload & Hfetch).
  - reflexivity.
  - right. reflexivity.
  - reflexivity.
  - reflexivity.
  - split_and!; [reflexivity|exact Hdownload|exact Hfetch].
Defined.

(** ** The thread pool *)

Section pool.
Import SubmarineCable.



Variables (net : nat → nat → urlopen_outcome) (jitter : nat → nat → Q).

#[local] Arguments enrich_feature : simpl never.







End pool.

Section pipeline.
Import SubmarineCable.
Variables (net : nat → nat → urlopen_outcome) (jitter : nat → nat → Q).
Variables (features : list json) (order : list nat).
Hypothesis Horder : order ≡ₚ seq 0 (length features).







End pipeline.

Section completion.
Import SubmarineCable.
Variables (net : nat → nat → urlopen_outcome) (jitter : nat → nat → Q).
Variables (features : list json) (order : list nat).
Hypothesis Horder : order ≡ₚ seq 0 (length features).




End completion.








(** * Further properties *)

(** ** The retry loops, beyond exhaustion *)



(** X1: with [retries] zero or negative the loop body never runs:
    [fetch_json] makes no request and returns the empty dict. *)
Theorem fetch_json_no_attempt u url headers net jitter retries :
  retries ≤ 0 →
  SubmarineCable.fetch_json u net jitter retries = ([], Returned (JObj ∅)) ∧
  PeeringDB.fetch_json url headers net jitter retries = ([], Returned (JObj ∅)).
Proof.
  intros Hr. unfold SubmarineCable.fetch_json, PeeringDB.fetch_json.
  by rewrite Z2Nat.nonpos by done.
Qed.

Lemma fetch_json_no_attempt_witness :
  SubmarineCable.fetch_json SubmarineCable.CABLE_GEO_URL
    (λ _, Body (Some (JInt 1))) (λ _, 0%Q) (-2) = ([], Returned (JObj ∅)).
Proof.
  apply (fetch_json_no_attempt SubmarineCable.CABLE_GEO_URL "u" []
           (λ _, Body (Some (JInt 1))) (λ _, 0%Q) (-2)).
  lia.
Defined.



Lemma requests_cons {U} (e : event U) t :
  requests (e :: t) = match e with
                      | Request u => u :: requests t
                      | Sleep _ => requests t
                      end.
Proof. by destruct e. Qed.

Lemma sleeps_cons {U} (e : event U) t :
  sleeps (e :: t) = match e with
                    | Sleep w => w :: sleeps t
                    | Request _ => sleeps t
                    end.
Proof. by destruct e. Qed.


Lemma peeringdb_attempts_requests url headers net jitter todo : ∀ attempt,
  ∃ m, (m ≤ todo)%nat ∧ (todo = 0%nat ∨ 1 ≤ m)%nat ∧
    requests (PeeringDB.attempts url headers net jitter attempt todo).1
      = replicate m (url, headers) ∧
    (length (sleeps (PeeringDB.attempts url headers net jitter attempt todo).1) ≤ m)%nat.
Proof.
  induction todo as [|todo IH]; intros attempt.
  { exists 0%nat. split_and!; [lia|by left|reflexivity|cbn; lia]. }
  cbn [PeeringDB.attempts]. rewrite emit_bind.
  destruct (net attempt) as [code| | |[doc|]];
    try (destruct (IH (S attempt)) as (m & Hm & _ & Hreq & Hsl); exists (S m);
         rewrite emit_bind; cbn [fst snd];
         rewrite !requests_cons, !sleeps_cons, Hreq;
         split_and!; [lia|right; lia|done|cbn; lia]);
    exists 1%nat; (split_and!; [lia|right; lia|done|cbn; lia]).
Qed.


Lemma submarine_attempts_jitter u net jitter jitter' todo : ∀ attempt,
  (SubmarineCable.attempts u net jitter attempt todo).2
    = (SubmarineCable.attempts u net jitter' attempt todo).2 ∧
  requests (SubmarineCable.attempts u net jitter attempt todo).1
    = requests (SubmarineCable.attempts u net jitter' attempt todo).1.
Proof.
  induction todo as [|todo IH]; intros attempt; [done|].
  cbn [SubmarineCable.attempts]. rewrite !emit_bind.
  destruct (net attempt) as [code| | |[doc|]]; try done;
    rewrite ?emit_bind; cbn [fst snd]; rewrite !requests_cons;
    destruct (IH (S attempt)) as [-> ->]; done.
Qed.

Lemma enrich_jitter net jitter jitter' feature :
  (SubmarineCable.enrich_feature net jitter feature).2
    = (SubmarineCable.enrich_feature net jitter' feature).2.
Proof.
  destruct (Spec.identity feature) as [cable_id|e] eqn:Hid.
  2: { by rewrite !(enrich_raises_early _ _ _ _ Hid). }
  destruct (truthy cable_id) eqn:Htruthy.
  2: { by rewrite !(enrich_no_identity _ _ _ _ Hid Htruthy). }
  rewrite !(enrich_with_identity _ _ _ _ Hid Htruthy), !io_bind_snd.
  unfold SubmarineCable.fetch_json.
  by destruct (submarine_attempts_jitter (SubmarineCable.detail_url cable_id)
                 net jitter jitter' (Z.to_nat SubmarineCable.MAX_RETRIES) 1)
    as [-> _].
Qed.

(** X4: the values drawn by [random.uniform] change the delays only: two
    runs of [fetch_json] against the same network return the same value
    (or raise the same exception) after the same requests, whatever the
    jitter, and so [enrich_feature] leaves the feature in the same
    state. *)
Theorem jitter_changes_delays_only u net jitter jitter' retries feature :
  (SubmarineCable.fetch_json u net jitter retries).2
    = (SubmarineCable.fetch_json u net jitter' retries).2 ∧
  requests (SubmarineCable.fetch_json u net jitter retries).1
    = requests (SubmarineCable.fetch_json u net jitter' retries).1 ∧
  SubmarineCable.after_enrich net jitter feature
    = SubmarineCable.after_enrich net jitter' feature.
Proof.
  split_and!; [apply submarine_attempts_jitter..|].
  unfold SubmarineCable.after_enrich.
  by rewrite (enrich_jitter net jitter jitter').
Qed.

(** ** The endpoint loops, beyond exhaustion *)

Lemma overpass_continues net query endpoint rest :
  OsmPower.moves_on (net endpoint) = true →
  OsmPower.try_endpoints net query (endpoint :: rest) =
    (Request (endpoint, query) :: (OsmPower.try_endpoints net query rest).1,
     (OsmPower.try_endpoints net query rest).2).
Proof.
  intros Hmove. cbn [OsmPower.try_endpoints]. rewrite emit_bind.
  unfold OsmPower.moves_on in Hmove.
  destruct (net endpoint) as [|status_code [data|]]; [done| |];
    destruct (status_code =? 200); try done.
  destruct data; try discriminate Hmove. cbn in Hmove |- *. rewrite Hmove.
  by destruct (OsmPower.try_endpoints net query rest).
Qed.

Lemma overpass_stops net query endpoint rest :
  OsmPower.moves_on (net endpoint) = false →
  ∃ data,
    net endpoint = Response 200 (Some data) ∧
    OsmPower.try_endpoints net query (endpoint :: rest) =
      ([Request (endpoint, query)],
       match get data "elements" (JArr []) with
       | Raised e => Raised e
       | Returned elements =>
           match len elements with
           | Raised e => Raised e
           | Returned _ => Returned (Some data)
           end
       end) ∧
    (∀ fields, data = JObj fields →
       truthy (default (JArr []) (fields !! "elements")) = true).
Proof.
  intros Hmove. cbn [OsmPower.try_endpoints]. rewrite emit_bind.
  unfold OsmPower.moves_on in Hmove.
  destruct (net endpoint) as [|status_code [data|]]; try done;
    destruct (status_code =? 200) eqn:Hstatus; try done.
  apply Z.eqb_eq in Hstatus as ->. exists data. split; [done|].
  destruct data as [| | | | | |fields]; try (split; done).
  cbn in Hmove |- *. apply negb_false_iff in Hmove. rewrite Hmove. cbn.
  split; [|by intros ? [= <-]].
  by destruct (len (default (JArr []) (fields !! "elements"))).
Qed.

Lemma overpass_moves_on net query failing : ∀ rest,
  (∀ e, e ∈ failing → OsmPower.moves_on (net e) = true) →
  OsmPower.try_endpoints net query (failing ++ rest) =
    (((λ e, Request (e, query)) <$> failing)
       ++ (OsmPower.try_endpoints net query rest).1,
     (OsmPower.try_endpoints net query rest).2).
Proof.
  induction failing as [|e failing IH]; intros rest Hfail.
  { cbn [app fmap list_fmap]. by destruct (OsmPower.try_endpoints net query rest). }
  rewrite <- app_comm_cons, overpass_continues by (apply Hfail; left).
  rewrite IH by (intros e' ?; apply Hfail; by right). done.
Qed.

Lemma overpass_accepts net query endpoint rest fields elements n :
  net endpoint = Response 200 (Some (JObj fields)) →
  fields !! "elements" = Some elements →
  truthy elements = true →
  len elements = Returned n →
  OsmPower.try_endpoints net query (endpoint :: rest) =
    ([Request (endpoint, query)], Returned (Some (JObj fields))).
Proof.
  intros Hnet Hel Htruthy Hlen.
  cbn [OsmPower.try_endpoints]. rewrite emit_bind, Hnet. cbn.
  rewrite Hel. cbn. by rewrite Htruthy, Hlen.
Qed.

(** X5: endpoints are tried in the order of the list and the first answer
    that is accepted ends the search: when the first endpoints all make
    [fetch_overpass] move on and the next one answers 200 with a dict
    whose [elements] is not empty, exactly those endpoints are requested,
    in order, that document is returned and the endpoints after it are
    never contacted. *)
Theorem overpass_failover_order net query failing endpoint rest fields elements n :
  (∀ e, e ∈ failing → OsmPower.moves_on (net e) = true) →
  net endpoint = Response 200 (Some (JObj fields)) →
  fields !! "elements" = Some elements →
  truthy elements = true →
  len elements = Returned n →
  OsmPower.try_endpoints net query (failing ++ endpoint :: rest) =
    ((λ e, Request (e, query)) <$> (failing ++ [endpoint]),
     Returned (Some (JObj fields))).
Proof.
  intros Hfail Hnet Hel Htruthy Hlen.
  rewrite (overpass_moves_on _ _ _ _ Hfail).
  rewrite (overpass_accepts _ _ _ _ _ _ _ Hnet Hel Htruthy Hlen).
  by rewrite fmap_app.
Qed.

Lemma overpass_failover_order_witness :
  OsmPower.fetch_overpass
    (λ e, if String.eqb e "http://overpass-api.de/api/interpreter"
          then Response 200 (Some (JObj {[ "elements" := JArr [JInt 1] ]}))
          else Response 504 None) "q"
  = ([ Request ("https://overpass.private.coffee/api/interpreter", "q");
       Request ("https://maps.mail.ru/osm/tools/overpass/api/interpreter", "q");
       Request ("http://overpass-api.de/api/interpreter", "q") ]%string,
     Returned (Some (JObj {[ "elements" := JArr [JInt 1] ]}))).
Proof.
  apply (overpass_failover_order
    (λ e, if String.eqb e "http://overpass-api.de/api/interpreter"
          then Response 200 (Some (JObj {[ "elements" := JArr [JInt 1] ]}))
          else Response 504 None) "q"
    [ "https://overpass.private.coffee/api/interpreter";
      "https://maps.mail.ru/osm/tools/overpass/api/interpreter" ]%string
    "http://overpass-api.de/api/interpreter"
    [ "https://overpass.osm.jp/api/interpreter" ]%string
    {[ "elements" := JArr [JInt 1] ]} (JArr [JInt 1]) 1%nat).
  - intros e He.
    apply elem_of_cons in He as [->|He]; [reflexivity|].
    apply elem_of_cons in He as [->|He]; [reflexivity|].
    by apply elem_of_nil in He.
  - reflexivity.
  - reflexivity.
  - reflexivity.
  - reflexivity.
Defined.

(** X6: whatever the endpoints answer, [fetch_overpass] requests the
    endpoints in the order of the list, each at most once and none before
    its predecessors: the requests made are a prefix of the list. *)
Theorem overpass_requests_prefix net query endpoints :
  requests (OsmPower.try_endpoints net query endpoints).1
    `prefix_of` (λ e, (e, query)) <$> endpoints.
Proof.
  induction endpoints as [|endpoint rest IH]; [done|].
  rewrite fmap_cons.
  destruct (OsmPower.moves_on (net endpoint)) eqn:Hmove.
  - rewrite overpass_continues by done. cbn [fst]. rewrite requests_cons.
    by apply prefix_cons.
  - destruct (overpass_stops net query endpoint rest Hmove) as (data & _ & -> & _).
    apply prefix_cons, prefix_nil.
Qed.

(** X7: [fetch_overpass] never returns an empty result: a document it
    returns came with status 200 from an endpoint of the list, the last
    one requested, and is a dict whose [elements] is truthy. *)
Theorem overpass_returns_nonempty net query endpoints data :
  (OsmPower.try_endpoints net query endpoints).2 = Returned (Some data) →
  ∃ endpoint fields elements,
    endpoint ∈ endpoints ∧
    net endpoint = Response 200 (Some data) ∧
    data = JObj fields ∧
    fields !! "elements" = Some elements ∧
    truthy elements = true ∧
    last (requests (OsmPower.try_endpoints net query endpoints).1)
      = Some (endpoint, query).
Proof.
  induction endpoints as [|e rest IH]; [done|].
  destruct (OsmPower.moves_on (net e)) eqn:Hmove.
  - rewrite overpass_continues by done. cbn [fst snd]. rewrite requests_cons.
    intros Hrun. destruct (IH Hrun) as (endpoint & fields & elements & Hin & Hnet
                                         & Hdata & Hel & Htruthy & Hlast).
    exists endpoint, fields, elements. split_and!; try done; [by right|].
    by rewrite last_cons, Hlast.
  - destruct (overpass_stops net query e rest Hmove) as (d & Hnet & -> & Hobj).
    cbn [fst snd].
    destruct d as [| | | | | |fields]; try done.
    specialize (Hobj fields eq_refl). cbn.
    destruct (fields !! "elements") as [elements|] eqn:Hel; [|done].
    cbn in Hobj |- *. destruct (len elements) as [n|err]; [|done].
    intros [= <-]. exists e, fields, elements.
    split_and!; try done. left.
Qed.

Lemma overpass_returns_nonempty_witness :
  ∃ endpoint fields elements,
    endpoint ∈ OsmPower.OVERPASS_ENDPOINTS ∧
    (λ _ : string, Response 200 (Some (JObj {[ "elements" := JArr [JInt 1] ]})))
      endpoint
      = Response 200 (Some (JObj {[ "elements" := JArr [JInt 1] ]})) ∧
    JObj {[ "elements" := JArr [JInt 1] ]} = JObj fields ∧
    fields !! "elements" = Some elements ∧
    truthy elements = true ∧
    last (requests (OsmPower.try_endpoints
            (λ _, Response 200 (Some (JObj {[ "elements" := JArr [JInt 1] ]})))
            "q" OsmPower.OVERPASS_ENDPOINTS).1)
      = Some (endpoint, "q"%string).
Proof.
  apply (overpass_returns_nonempty
    (λ _, Response 200 (Some (JObj {[ "elements" := JArr [JInt 1] ]})))
    "q" OsmPower.OVERPASS_ENDPOINTS (JObj {[ "elements" := JArr [JInt 1] ]})).
  reflexivity.
Defined.

Lemma skipped_moves_on o : Props.skipped o = true → OsmPower.moves_on o = true.
Proof.
  unfold Props.skipped, OsmPower.moves_on.
  destruct o as [|status_code [data|]]; try done.
  destruct (status_code =? 200); done.
Qed.

Lemma download_continues net tag endpoint rest :
  Props.skipped (net endpoint) = true →
  OsmPowerNodePrimary.try_endpoints net tag (endpoint :: rest) =
    (Request (endpoint, tag) :: (OsmPowerNodePrimary.try_endpoints net tag rest).1,
     (OsmPowerNodePrimary.try_endpoints net tag rest).2).
Proof.
  intros Hskip. cbn [OsmPowerNodePrimary.try_endpoints]. rewrite emit_bind.
  unfold Props.skipped in Hskip.
  destruct (net endpoint) as [|status_code [data|]]; [done| |];
    destruct (status_code =? 200); done.
Qed.

Lemma download_stops net tag endpoint rest data :
  net endpoint = Response 200 (Some data) →
  OsmPowerNodePrimary.try_endpoints net tag (endpoint :: rest) =
    ([Request (endpoint, tag)],
     match get data "elements" (JArr []) with
     | Raised e => Raised e
     | Returned elements =>
         match len elements with
         | Raised e => Raised e
         | Returned _ => Returned (Some data)
         end
     end).
Proof.
  intros Hnet. cbn [OsmPowerNodePrimary.try_endpoints].
  rewrite emit_bind, Hnet. cbn [Z.eqb Pos.eqb negb].
  destruct (get data "elements" (JArr [])) as [elements|e]; [|done].
  rewrite lift_returned_bind. by destruct (len elements).
Qed.

Lemma download_skips net tag failing : ∀ rest,
  (∀ e, e ∈ failing → Props.skipped (net e) = true) →
  OsmPowerNodePrimary.try_endpoints net tag (failing ++ rest) =
    (((λ e, Request (e, tag)) <$> failing)
       ++ (OsmPowerNodePrimary.try_endpoints net tag rest).1,
     (OsmPowerNodePrimary.try_endpoints net tag rest).2).
Proof.
  induction failing as [|e failing IH]; intros rest Hfail.
  { cbn [app fmap list_fmap].
    by destruct (OsmPowerNodePrimary.try_endpoints net tag rest). }
  rewrite <- app_comm_cons, download_continues by (apply Hfail; left).
  rewrite IH by (intros e' ?; apply Hfail; by right). done.
Qed.

(** X8: a response with status 200 whose body is JSON but not an object
    (a list, a string, a number) is not handled by either Overpass
    fetcher: [data.get] raises [AttributeError], which goes out of the
    fetcher, and the endpoints after that one are never tried. *)
Theorem non_object_body_escapes net key failing endpoint rest data :
  (∀ e, e ∈ failing → Props.skipped (net e) = true) →
  net endpoint = Response 200 (Some data) →
  (∀ fields, data ≠ JObj fields) →
  OsmPower.try_endpoints net key (failing ++ endpoint :: rest) =
    ((λ e, Request (e, key)) <$> (failing ++ [endpoint]), Raised AttributeError) ∧
  OsmPowerNodePrimary.try_endpoints net key (failing ++ endpoint :: rest) =
    ((λ e, Request (e, key)) <$> (failing ++ [endpoint]), Raised AttributeError).
Proof.
  intros Hfail Hnet Hdata.
  assert (get data "elements" (JArr []) = Raised AttributeError) as Hget.
  { destruct data as [| | | | | |fields]; try done. by destruct (Hdata fields). }
  split.
  - rewrite overpass_moves_on by (intros e ?; by apply skipped_moves_on, Hfail).
    assert (OsmPower.moves_on (net endpoint) = false) as Hmove.
    { rewrite Hnet.
      destruct data as [| | | | | |fields]; [done..|by destruct (Hdata fields)]. }
    destruct (overpass_stops net key endpoint rest Hmove) as (d & Hd & -> & _).
    rewrite Hnet in Hd. injection Hd as <-. rewrite Hget. by rewrite fmap_app.
  - rewrite download_skips by done.
    rewrite (download_stops _ _ _ _ _ Hnet), Hget. by rewrite fmap_app.
Qed.

Lemma non_object_body_escapes_witness :
  OsmPower.fetch_overpass (λ _, Response 200 (Some (JArr []))) "q"
  = ([Request ("https://overpass.private.coffee/api/interpreter"%string,
               "q"%string)], Raised AttributeError).
Proof.
  apply (non_object_body_escapes (λ _, Response 200 (Some (JArr []))) "q" []
           "https://overpass.private.coffee/api/interpreter"
           [ "https://maps.mail.ru/osm/tools/overpass/api/interpreter";
             "http://overpass-api.de/api/interpreter";
             "https://overpass.osm.jp/api/interpreter" ]%string (JArr [])).
  - intros e He. by apply elem_of_nil in He.
  - reflexivity.
  - discriminate.
Defined.

(** X9: the two Overpass fetchers disagree on a 200 response whose
    [elements] is null: [fetch_overpass] takes it for an empty result and
    goes on to the next endpoint, [download_tag] calls [len] on it and
    raises [TypeError], leaving the other endpoints untried. *)
Theorem null_elements_disagreement net key endpoint rest fields :
  net endpoint = Response 200 (Some (JObj fields)) →
  fields !! "elements" = Some JNull →
  OsmPower.try_endpoints net key (endpoint :: rest) =
    (Request (endpoint, key) :: (OsmPower.try_endpoints net key rest).1,
     (OsmPower.try_endpoints net key rest).2) ∧
  OsmPowerNodePrimary.try_endpoints net key (endpoint :: rest) =
    ([Request (endpoint, key)], Raised TypeError).
Proof.
  intros Hnet Hel. split.
  - apply overpass_continues. rewrite Hnet. cbn. by rewrite Hel.
  - rewrite (download_stops _ _ _ _ _ Hnet). cbn. by rewrite Hel.
Qed.

Lemma null_elements_disagreement_witness :
  OsmPower.fetch_overpass
    (λ _, Response 200 (Some (JObj {[ "elements" := JNull ]}))) "switch"
    = ((λ e, Request (e, "switch"%string)) <$> OsmPower.OVERPASS_ENDPOINTS,
       Returned None) ∧
  OsmPowerNodePrimary.download_tag
    (λ _, Response 200 (Some (JObj {[ "elements" := JNull ]}))) "switch"
    = ([Request ("http://overpass-api.de/api/interpreter"%string, "switch"%string)],
       Raised TypeError).
Proof.
  destruct (null_elements_disagreement
    (λ _, Response 200 (Some (JObj {[ "elements" := JNull ]}))) "switch"
    "http://overpass-api.de/api/interpreter"
    [ "https://maps.mail.ru/osm/tools/overpass/api/interpreter";
      "https://overpass.openstreetmap.ru/api/interpreter";
      "https://overpass.private.coffee/api/interpreter";
      "https://overpass.osm.jp/api/interpreter" ]%string
    {[ "elements" := JNull ]}) as [_ Hdownload]; [reflexivity..|].
  split; [reflexivity|exact Hdownload].
Defined.

(** X10: [download_tag] tries the endpoints in the order of the list and
    returns the first document that arrives with status 200, parses as a
    dict and has an [elements] that [len] accepts (or none), whatever
    that document holds; the endpoints after it are never contacted. *)
Theorem download_tag_failover_order net tag failing endpoint rest fields n :
  (∀ e, e ∈ failing → Props.skipped (net e) = true) →
  net endpoint = Response 200 (Some (JObj fields)) →
  len (default (JArr []) (fields !! "elements")) = Returned n →
  OsmPowerNodePrimary.try_endpoints net tag (failing ++ endpoint :: rest) =
    ((λ e, Request (e, tag)) <$> (failing ++ [endpoint]),
     Returned (Some (JObj fields))).
Proof.
  intros Hfail Hnet Hlen. rewrite download_skips by done.
  rewrite (download_stops _ _ _ _ _ Hnet). cbn [get]. rewrite Hlen.
  by rewrite fmap_app.
Qed.

Lemma download_tag_failover_order_witness :
  OsmPowerNodePrimary.download_tag
    (λ e, if String.eqb e "https://maps.mail.ru/osm/tools/overpass/api/interpreter"
          then Response 200 (Some (JObj ∅)) else RequestException) "switch"
  = ([ Request ("http://overpass-api.de/api/interpreter", "switch");
       Request ("https://maps.mail.ru/osm/tools/overpass/api/interpreter", "switch")
     ]%string, Returned (Some (JObj ∅))).
Proof.
  apply (download_tag_failover_order
    (λ e, if String.eqb e "https://maps.mail.ru/osm/tools/overpass/api/interpreter"
          then Response 200 (Some (JObj ∅)) else RequestException) "switch"
    [ "http://overpass-api.de/api/interpreter" ]%string
    "https://maps.mail.ru/osm/tools/overpass/api/interpreter"
    [ "https://overpass.openstreetmap.ru/api/interpreter";
      "https://overpass.private.coffee/api/interpreter";
      "https://overpass.osm.jp/api/interpreter" ]%string ∅ 0%nat).
  - intros e He. apply elem_of_cons in He as [->|He]; [reflexivity|].
    by apply elem_of_nil in He.
  - reflexivity.
  - reflexivity.
Defined.

(** ** Scripts: fetches and the files written *)

Lemma network_bind {U A B} (m : io (event U) A) (k : A → io (effect U) B) :
  (network m ≫= k) =
    match m.2 with
    | Returned a => ((Network <$> m.1) ++ (k a).1, (k a).2)
    | Raised e => (Network <$> m.1, Raised e)
    end.
Proof. destruct m as [t [a|e]]; [|done]. cbn. by destruct (k a). Qed.

Lemma writes_app {U} (t t' : list (effect U)) :
  writes (t ++ t') = writes t ++ writes t'.
Proof. apply omap_app. Qed.

Lemma writes_network {U} (t : list (event U)) : writes (Network <$> t) = [].
Proof. induction t as [|e t IH]; [done|]. by cbn. Qed.

Lemma traffic_app {U} (t t' : list (effect U)) :
  traffic (t ++ t') = traffic t ++ traffic t'.
Proof. apply omap_app. Qed.

Lemma traffic_network {U} (t : list (event U)) : traffic (Network <$> t) = t.
Proof. induction t as [|e t IH]; [done|]. cbn. by f_equal. Qed.

Lemma save_tag_unfold world tag :
  OsmPowerNodePrimary.save_tag world tag =
    match (OsmPowerNodePrimary.download_tag (world tag) tag).2 with
    | Returned (Some data) =>
        ((Network <$> (OsmPowerNodePrimary.download_tag (world tag) tag).1)
           ++ (if truthy data
               then [WriteFile (OsmPowerNodePrimary.DOWNLOAD_DIR +:+ "/"
                       +:+ "osm_power_node_" +:+ tag +:+ ".json") data]
               else []),
         Returned tt)
    | Returned None =>
        (Network <$> (OsmPowerNodePrimary.download_tag (world tag) tag).1,
         Returned tt)
    | Raised e =>
        (Network <$> (OsmPowerNodePrimary.download_tag (world tag) tag).1,
         Raised e)
    end.
Proof.
  unfold OsmPowerNodePrimary.save_tag. rewrite network_bind.
  destruct (OsmPowerNodePrimary.download_tag (world tag) tag).2 as [[data|]|e];
    [|by rewrite app_nil_r|done].
  by destruct (truthy data).
Qed.

(** X11: the main block of [osm_power_node_primary.py] tests [if data]
    on what [download_tag] returns: a body that is the empty object is
    accepted by [download_tag], which stops at that endpoint, but no file
    is written for it; any other accepted document, one with an empty
    [elements] included, is written to the file of the tag. *)
Theorem empty_object_downloaded_not_saved world tag failing endpoint rest fields n :
  OsmPowerNodePrimary.OVERPASS_ENDPOINTS = failing ++ endpoint :: rest →
  (∀ e, e ∈ failing → Props.skipped (world tag e) = true) →
  world tag endpoint = Response 200 (Some (JObj fields)) →
  len (default (JArr []) (fields !! "elements")) = Returned n →
  (OsmPowerNodePrimary.download_tag (world tag) tag).2
    = Returned (Some (JObj fields)) ∧
  (OsmPowerNodePrimary.save_tag world tag).2 = Returned tt ∧
  writes (OsmPowerNodePrimary.save_tag world tag).1 =
    if bool_decide (size fields = 0%nat) then []
    else [("downloads/osm_power_node_" +:+ tag +:+ ".json", JObj fields)].
Proof.
  intros Hlist Hfail Hnet Hlen.
  assert (OsmPowerNodePrimary.download_tag (world tag) tag =
            ((λ e, Request (e, tag)) <$> (failing ++ [endpoint]),
             Returned (Some (JObj fields)))) as Hrun.
  { unfold OsmPowerNodePrimary.download_tag.
    rewrite Hlist, download_skips by done.
    rewrite (download_stops _ _ _ _ _ Hnet). cbn [get]. rewrite Hlen.
    by rewrite fmap_app. }
  rewrite save_tag_unfold, Hrun. cbn [fst snd]. split_and!; [done..|].
  rewrite writes_app, writes_network. cbn [truthy].
  by destruct (bool_decide (size fields = 0%nat)).
Qed.

Lemma empty_object_downloaded_not_saved_witness :
  (OsmPowerNodePrimary.download_tag (λ _, Response 200 (Some (JObj ∅))) "switch").2
    = Returned (Some (JObj ∅)) ∧
  writes (OsmPowerNodePrimary.save_tag
            (λ _ _, Response 200 (Some (JObj ∅))) "switch").1 = [].
Proof.
  destruct (empty_object_downloaded_not_saved
    (λ _ _, Response 200 (Some (JObj ∅))) "switch" []
    "http://overpass-api.de/api/interpreter"
    [ "https://maps.mail.ru/osm/tools/overpass/api/interpreter";
      "https://overpass.openstreetmap.ru/api/interpreter";
      "https://overpass.private.coffee/api/interpreter";
      "https://overpass.osm.jp/api/interpreter" ]%string ∅ 0%nat)
    as (Hdownload & _ & Hwrites).
  - reflexivity.
  - intros e He. by apply elem_of_nil in He.
  - reflexivity.
  - reflexivity.
  - split; [exact Hdownload|exact Hwrites].
Defined.

Lemma io_bind_fst {E A B} (m : io E A) (k : A → io E B) :
  (m ≫= k).1 = match m.2 with
               | Returned a => m.1 ++ (k a).1
               | Raised e => m.1
               end.
Proof. destruct m as [t [a|e]]; [|done]. cbn. by destruct (k a). Qed.

Lemma save_tags_writes world result tags :
  (∀ tag, tag ∈ tags →
     (OsmPowerNodePrimary.download_tag (world tag) tag).2 = Returned (result tag)) →
  (OsmPowerNodePrimary.save_tags world tags).2 = Returned tt ∧
  writes (OsmPowerNodePrimary.save_tags world tags).1 =
    omap (λ tag, match result tag with
                 | Some data =>
                     if truthy data
                     then Some ("downloads/osm_power_node_" +:+ tag +:+ ".json", data)
                     else None
                 | None => None
                 end) tags.
Proof.
  induction tags as [|tag rest IH]; intros Hall; [done|].
  destruct IH as (IHret & IHwrites); [intros t ?; apply Hall; by right|].
  cbn [OsmPowerNodePrimary.save_tags]. rewrite io_bind_snd, io_bind_fst.
  rewrite save_tag_unfold, (Hall tag) by left.
  cbn [omap list_omap].
  destruct (result tag) as [data|]; cbn [fst snd].
  - split; [done|]. rewrite !writes_app, writes_network, IHwrites.
    by destruct (truthy data).
  - split; [done|]. by rewrite writes_app, writes_network, IHwrites.
Qed.

(** X12: in the main block of [osm_power_node_primary.py], a tag whose
    download fails on every endpoint (or gives the empty object) is
    skipped and the loop goes on: when no download raises, the block
    ends normally and writes, in the order of [NODE_TAGS], exactly the
    files of the tags whose download returned a truthy document. *)
Theorem node_primary_main_writes world result :
  (∀ tag, tag ∈ OsmPowerNodePrimary.NODE_TAGS →
     (OsmPowerNodePrimary.download_tag (world tag) tag).2 = Returned (result tag)) →
  (OsmPowerNodePrimary.main world).2 = Returned tt ∧
  writes (OsmPowerNodePrimary.main world).1 =
    omap (λ tag, match result tag with
                 | Some data =>
                     if truthy data
                     then Some ("downloads/osm_power_node_" +:+ tag +:+ ".json", data)
                     else None
                 | None => None
                 end) OsmPowerNodePrimary.NODE_TAGS.
Proof.
  intros Hall. unfold OsmPowerNodePrimary.main.
  by apply save_tags_writes.
Qed.

Lemma node_primary_main_writes_witness :
  writes (OsmPowerNodePrimary.main
            (λ tag _, if String.eqb tag "switch"
                      then Response 200 (Some (JObj {[ "elements" := JArr [] ]}))
                      else Response 500 None)).1
  = [("downloads/osm_power_node_switch.json"%string,
      JObj {[ "elements" := JArr [] ]})].
Proof.
  destruct (node_primary_main_writes
    (λ tag _, if String.eqb tag "switch"
              then Response 200 (Some (JObj {[ "elements" := JArr [] ]}))
              else Response 500 None)
    (λ tag, if String.eqb tag "switch"
            then Some (JObj {[ "elements" := JArr [] ]}) else None))
    as [_ Hwrites].
  - intros tag Htag. unfold OsmPowerNodePrimary.NODE_TAGS in Htag.
    repeat (apply elem_of_cons in Htag as [->|Htag]; [reflexivity|]).
    by apply elem_of_nil in Htag.
  - rewrite Hwrites. reflexivity.
Defined.

(** ** [transform_geojson] *)

Lemma feature_lookup_properties (a b c : json) :
  ({[ "type" := a; "properties" := b; "geometry" := c ]} : gmap string json)
    !! "properties" = Some b.
Proof. reflexivity. Qed.

Lemma feature_lookup_geometry (a b c : json) :
  ({[ "type" := a; "properties" := b; "geometry" := c ]} : gmap string json)
    !! "geometry" = Some c.
Proof. reflexivity. Qed.

Lemma collection_lookup_features (a b : json) :
  ({[ "type" := a; "features" := b ]} : gmap string json) !! "features" = Some b.
Proof. reflexivity. Qed.

Lemma transform_features_cons feature rest :
  OsmPower.transform_features (feature :: rest) =
    match OsmPower.clean_properties feature, get feature "geometry" JNull,
          OsmPower.transform_features rest with
    | Returned props, Returned geometry, Returned features =>
        Returned (JObj {[ "type" := JStr "Feature"; "properties" := props;
                          "geometry" := geometry ]} :: features)
    | Raised e, _, _ => Raised e
    | Returned _, Raised e, _ => Raised e
    | Returned _, Returned _, Raised e => Raised e
    end.
Proof.
  cbn [OsmPower.transform_features].
  destruct (OsmPower.clean_properties feature); [|done].
  destruct (get feature "geometry" JNull); [|done].
  by destruct (OsmPower.transform_features rest).
Qed.

Lemma clean_properties_shape feature :
  Props.properties_shape false feature →
  OsmPower.clean_properties (JObj feature) =
    Returned (JObj (delete "type" (delete "nodes"
                      match feature !! "properties" with
                      | Some (JObj props) => props
                      | _ => ∅
                      end))).
Proof.
  unfold Props.properties_shape, OsmPower.clean_properties. cbn.
  by destruct (feature !! "properties") as [[| | | | | |props]|].
Qed.

Lemma transform_features_shape features :
  Forall (Props.properties_shape false) features →
  OsmPower.transform_features (JObj <$> features) =
    Returned (Props.clean_feature <$> features).
Proof.
  induction 1 as [|feature rest Hshape _ IH]; [done|].
  rewrite fmap_cons, transform_features_cons, clean_properties_shape by done.
  cbn [get]. by rewrite IH.
Qed.

(** X13: on a collection whose features are dicts with properties that
    are a dict or missing, [transform_geojson] returns a
    [FeatureCollection] with one feature per input feature, in the same
    order; each has exactly the keys [type], [properties] and
    [geometry]: the properties without [nodes] and [type], the geometry
    as it was or null when missing.  Every other key of a feature and of
    the collection is dropped; a collection without [features] gives an
    empty one. *)
Theorem transform_geojson_shape geojson features :
  default (JArr []) (geojson !! "features") = JArr (JObj <$> features) →
  Forall (Props.properties_shape false) features →
  OsmPower.transform_geojson (JObj geojson) =
    Returned (JObj {[ "type" := JStr "FeatureCollection";
                      "features" := JArr (Props.clean_feature <$> features) ]}).
Proof.
  intros Hfeatures Hshape. unfold OsmPower.transform_geojson. cbn [get].
  rewrite Hfeatures. cbn [mbind result_bind iter].
  by rewrite transform_features_shape.
Qed.

Lemma transform_geojson_shape_witness :
  OsmPower.transform_geojson
    (JObj {[ "generator" := JStr "overpass";
             "features" := JArr [
               JObj {[ "id" := JInt 4;
                       "properties" := JObj {[ "nodes" := JArr [JInt 1];
                                               "type" := JStr "way";
                                               "power" := JStr "line" ]};
                       "geometry" := JStr "g" ]};
               JObj ∅ ] ]})
  = Returned (JObj {[ "type" := JStr "FeatureCollection";
        "features" := JArr [
          JObj {[ "type" := JStr "Feature";
                  "properties" := JObj {[ "power" := JStr "line" ]};
                  "geometry" := JStr "g" ]};
          JObj {[ "type" := JStr "Feature";
                  "properties" := JObj ∅;
                  "geometry" := JNull ]} ] ]}).
Proof.
  rewrite (transform_geojson_shape
    {[ "generator" := JStr "overpass";
       "features" := JArr [
         JObj {[ "id" := JInt 4;
                 "properties" := JObj {[ "nodes" := JArr [JInt 1];
                                         "type" := JStr "way";
                                         "power" := JStr "line" ]};
                 "geometry" := JStr "g" ]};
         JObj ∅ ] ]}
    [ {[ "id" := JInt 4;
         "properties" := JObj {[ "nodes" := JArr [JInt 1];
                                 "type" := JStr "way";
                                 "power" := JStr "line" ]};
         "geometry" := JStr "g" ]}; ∅ ]).
  - vm_compute. reflexivity.
  - vm_compute. reflexivity.
  - repeat (constructor; [vm_compute; exact I|]). constructor.
Defined.

Lemma transform_features_cleaned items : ∀ out,
  OsmPower.transform_features items = Returned out →
  Forall Props.cleaned out ∧ length out = length items.
Proof.
  induction items as [|feature rest IH]; intros out.
  { intros [= <-]. by split. }
  rewrite transform_features_cons.
  destruct (OsmPower.clean_properties feature) as [props|e] eqn:Hclean; [|done].
  destruct (get feature "geometry" JNull) as [geometry|e]; [|done].
  destruct (OsmPower.transform_features rest) as [features|e]; [|done].
  intros [= <-]. destruct (IH features eq_refl) as [IHc IHl].
  split; [|by cbn; rewrite IHl]. constructor; [|done].
  unfold OsmPower.clean_properties in Hclean.
  apply result_bind_inv in Hclean as (properties & _ & Hclean).
  destruct properties as [| | | | | |p]; try done. injection Hclean as <-.
  exists (delete "type" (delete "nodes" p)), geometry. split_and!; [done| |].
  - rewrite lookup_delete_ne by done. apply lookup_delete_eq.
  - apply lookup_delete_eq.
Qed.

Lemma transform_features_fixed out :
  Forall Props.cleaned out → OsmPower.transform_features out = Returned out.
Proof.
  induction 1 as [|feature rest (props & geometry & -> & Hnodes & Htype) _ IH];
    [done|].
  rewrite transform_features_cons, IH.
  unfold OsmPower.clean_properties. cbn [get].
  rewrite feature_lookup_properties, feature_lookup_geometry. cbn.
  by rewrite (delete_id props "nodes"), (delete_id props "type").
Qed.

Lemma transform_geojson_inv geojson out_doc :
  OsmPower.transform_geojson geojson = Returned out_doc →
  ∃ items out,
    (get geojson "features" (JArr []) ≫= iter) = Returned items ∧
    OsmPower.transform_features items = Returned out ∧
    out_doc = JObj {[ "type" := JStr "FeatureCollection"; "features" := JArr out ]}.
Proof.
  unfold OsmPower.transform_geojson.
  destruct (get geojson "features" (JArr [])) as [features|e]; [|done].
  cbn [mbind result_bind].
  destruct (iter features) as [items|e]; [|done].
  destruct (OsmPower.transform_features items) as [out|e] eqn:Hout; [|done].
  intros [= <-]. by exists items, out.
Qed.

Lemma transform_geojson_fixed out :
  Forall Props.cleaned out →
  OsmPower.transform_geojson
    (JObj {[ "type" := JStr "FeatureCollection"; "features" := JArr out ]})
  = Returned (JObj {[ "type" := JStr "FeatureCollection"; "features" := JArr out ]}).
Proof.
  intros Hcleaned. unfold OsmPower.transform_geojson. cbn [get].
  rewrite collection_lookup_features.
  cbn [default mbind result_bind iter id].
  by rewrite transform_features_fixed.
Qed.

(** X14: [transform_geojson] is idempotent: a document it returns is
    returned unchanged when transformed again. *)
Theorem transform_geojson_idempotent geojson out_doc :
  OsmPower.transform_geojson geojson = Returned out_doc →
  OsmPower.transform_geojson out_doc = Returned out_doc.
Proof.
  intros (items & out & _ & Hout & ->)%transform_geojson_inv.
  destruct (transform_features_cleaned _ _ Hout) as [Hcleaned _].
  by apply transform_geojson_fixed.
Qed.

Lemma transform_geojson_idempotent_witness :
  OsmPower.transform_geojson
    (JObj {[ "type" := JStr "FeatureCollection";
             "features" := JArr [
               JObj {[ "type" := JStr "Feature";
                       "properties" := JObj {[ "power" := JStr "line" ]};
                       "geometry" := JNull ]} ] ]})
  = Returned
    (JObj {[ "type" := JStr "FeatureCollection";
             "features" := JArr [
               JObj {[ "type" := JStr "Feature";
                       "properties" := JObj {[ "power" := JStr "line" ]};
                       "geometry" := JNull ]} ] ]}).
Proof.
  apply (transform_geojson_idempotent
    (JObj {[ "features" := JArr [
               JObj {[ "id" := JInt 1;
                       "properties" := JObj {[ "power" := JStr "line";
                                               "nodes" := JArr [] ]} ]} ] ]})).
  reflexivity.
Defined.

(** X15: whatever it is given, a document that [transform_geojson]
    returns is a [FeatureCollection] with as many features as the input
    had, each with exactly the keys [type], [properties] and [geometry]
    and properties that hold neither [nodes] nor [type]. *)
Theorem transform_geojson_output geojson out_doc :
  OsmPower.transform_geojson geojson = Returned out_doc →
  ∃ items out,
    (get geojson "features" (JArr []) ≫= iter) = Returned items ∧
    out_doc = JObj {[ "type" := JStr "FeatureCollection"; "features" := JArr out ]} ∧
    length out = length items ∧
    Forall Props.cleaned out.
Proof.
  intros (items & out & Hitems & Hout & ->)%transform_geojson_inv.
  destruct (transform_features_cleaned _ _ Hout) as [Hcleaned Hlen].
  by exists items, out.
Qed.

Lemma transform_geojson_output_witness :
  ∃ items out,
    (get (JObj {[ "features" := JArr [JObj ∅; JObj ∅] ]}) "features" (JArr [])
       ≫= iter) = Returned items ∧
    JObj {[ "type" := JStr "FeatureCollection";
            "features" := JArr [Props.clean_feature ∅; Props.clean_feature ∅] ]}
      = JObj {[ "type" := JStr "FeatureCollection"; "features" := JArr out ]} ∧
    length out = length items ∧
    Forall Props.cleaned out.
Proof.
  apply (transform_geojson_output
           (JObj {[ "features" := JArr [JObj ∅; JObj ∅] ]})).
  reflexivity.
Defined.

(** X16: a feature whose [properties] is null makes [transform_geojson]
    raise [AttributeError]: [feature.get("properties", {})] then gives
    [None], which has no [copy]. *)
Theorem transform_geojson_null_properties geojson features :
  default (JArr []) (geojson !! "features") = JArr (JObj <$> features) →
  Forall (Props.properties_shape true) features →
  Exists (λ feature, feature !! "properties" = Some JNull) features →
  OsmPower.transform_geojson (JObj geojson) = Raised AttributeError.
Proof.
  intros Hfeatures Hshape Hnull. unfold OsmPower.transform_geojson. cbn [get].
  rewrite Hfeatures. cbn [mbind result_bind iter].
  assert (OsmPower.transform_features (JObj <$> features) = Raised AttributeError)
    as ->; [|done].
  clear Hfeatures. induction Hshape as [|feature rest Hfeature _ IH]; [by apply Exists_nil in Hnull|].
  rewrite fmap_cons, transform_features_cons.
  unfold Props.properties_shape in Hfeature.
  unfold OsmPower.clean_properties at 1. cbn [get].
  destruct (feature !! "properties") as [[| | | | | |props]|] eqn:Hp;
    try done; try (cbn; done).
  all: apply Exists_cons in Hnull as [Hhead|Htail]; [congruence|].
  all: cbn [default mbind result_bind mret result_ret]; by rewrite (IH Htail).
Qed.

Lemma transform_geojson_null_properties_witness :
  OsmPower.transform_geojson
    (JObj {[ "features" := JArr [ JObj {[ "properties" := JObj ∅ ]};
                                  JObj {[ "properties" := JNull ]} ] ]})
  = Raised AttributeError.
Proof.
  apply (transform_geojson_null_properties
    {[ "features" := JArr [ JObj {[ "properties" := JObj ∅ ]};
                            JObj {[ "properties" := JNull ]} ] ]}
    [ {[ "properties" := JObj ∅ ]}; {[ "properties" := JNull ]} ]).
  - vm_compute. reflexivity.
  - repeat (constructor; [vm_compute; done|]). constructor.
  - apply Exists_cons_tl, Exists_cons_hd. vm_compute. reflexivity.
Defined.

(** ** The per-tag pipelines and [main] of [osm_power.py] *)

Section osm_pipeline.
Variable json2geojson : json → result json.
Variable world : string → string → requests_outcome.

(** What follows a fetch that returned a document, for a node tag. *)
Lemma process_node_tag_unfold tag :
  OsmPower.process_node_tag json2geojson world tag =
    let run := OsmPower.fetch_overpass (world (OsmPower.build_node_query tag))
                 (OsmPower.build_node_query tag) in
    match run.2 with
    | Raised e => (Network <$> run.1, Raised e)
    | Returned None => (Network <$> run.1, Returned false)
    | Returned (Some osm_data) =>
        match json2geojson osm_data with
        | Raised e => (Network <$> run.1, Raised e)
        | Returned geojson =>
            match get geojson "features" (JArr []) ≫= len with
            | Raised e => (Network <$> run.1, Raised e)
            | Returned _ =>
                ((Network <$> run.1)
                   ++ [WriteFile (OsmPower.output_path
                                    ("osm_power_node_" +:+ tag +:+ ".geojson"))
                         geojson],
                 Returned true)
            end
        end
    end.
Proof.
  unfold OsmPower.process_node_tag, OsmPower.convert_to_geojson.
  cbv zeta. rewrite network_bind.
  destruct (OsmPower.fetch_overpass _ _).2 as [[osm_data|]|e];
    [|by rewrite app_nil_r|done].
  destruct (json2geojson osm_data) as [geojson|e]; [|by rewrite app_nil_r].
  rewrite lift_returned_bind.
  destruct (get geojson "features" (JArr [])) as [features|e]; [|by rewrite app_nil_r].
  rewrite lift_returned_bind. cbn [mbind result_bind].
  destruct (len features) as [n|e]; [|by rewrite app_nil_r].
  done.
Qed.

Lemma process_way_tag_unfold tag :
  OsmPower.process_way_tag json2geojson world tag =
    let run := OsmPower.fetch_overpass (world (OsmPower.build_way_query tag))
                 (OsmPower.build_way_query tag) in
    match run.2 with
    | Raised e => (Network <$> run.1, Raised e)
    | Returned None => (Network <$> run.1, Returned false)
    | Returned (Some osm_data) =>
        match json2geojson osm_data ≫= OsmPower.transform_geojson with
        | Raised e => (Network <$> run.1, Raised e)
        | Returned geojson =>
            match get geojson "features" (JArr []) ≫= len with
            | Raised e => (Network <$> run.1, Raised e)
            | Returned _ =>
                ((Network <$> run.1)
                   ++ [WriteFile (OsmPower.output_path
                                    ("osm_power_way_" +:+ tag +:+ ".geojson"))
                         geojson],
                 Returned true)
            end
        end
    end.
Proof.
  unfold OsmPower.process_way_tag, OsmPower.convert_to_geojson.
  cbv zeta. rewrite network_bind.
  destruct (OsmPower.fetch_overpass _ _).2 as [[osm_data|]|e];
    [|by rewrite app_nil_r|done].
  destruct (json2geojson osm_data) as [converted|e]; [|by rewrite app_nil_r].
  rewrite lift_returned_bind. cbn [mbind result_bind].
  destruct (OsmPower.transform_geojson converted) as [geojson|e];
    [|by rewrite app_nil_r].
  rewrite lift_returned_bind.
  destruct (get geojson "features" (JArr [])) as [features|e]; [|by rewrite app_nil_r].
  rewrite lift_returned_bind. cbn [mbind result_bind].
  destruct (len features) as [n|e]; [|by rewrite app_nil_r].
  done.
Qed.

(** A tag pipeline writes one file when it returns [True], none when it
    returns [False]. *)
Lemma process_node_tag_writes tag t ok :
  OsmPower.process_node_tag json2geojson world tag = (t, Returned ok) →
  length (writes t) = if ok then 1%nat else 0%nat.
Proof.
  rewrite process_node_tag_unfold. cbv zeta.
  destruct (OsmPower.fetch_overpass _ _) as [tr [[osm_data|]|e]]; cbn [fst snd];
    [| |done].
  - destruct (json2geojson osm_data) as [geojson|e]; [|done].
    destruct (get geojson "features" (JArr []) ≫= len); [|done].
    intros [= <- <-]. by rewrite writes_app, writes_network.
  - intros [= <- <-]. by rewrite writes_network.
Qed.

Lemma process_way_tag_writes tag t ok :
  OsmPower.process_way_tag json2geojson world tag = (t, Returned ok) →
  length (writes t) = if ok then 1%nat else 0%nat.
Proof.
  rewrite process_way_tag_unfold. cbv zeta.
  destruct (OsmPower.fetch_overpass _ _) as [tr [[osm_data|]|e]]; cbn [fst snd];
    [| |done].
  - destruct (json2geojson osm_data ≫= OsmPower.transform_geojson)
      as [geojson|e]; [|done].
    destruct (get geojson "features" (JArr []) ≫= len); [|done].
    intros [= <- <-]. by rewrite writes_app, writes_network.
  - intros [= <- <-]. by rewrite writes_network.
Qed.
End osm_pipeline.

(** X17: a tag for which every endpoint makes [fetch_overpass] move on is
    given up: [process_node_tag] and [process_way_tag] return [False]
    after one request per endpoint, convert nothing and write no file. *)
Theorem tag_given_up_when_endpoints_fail json2geojson world tag :
  (∀ e, e ∈ OsmPower.OVERPASS_ENDPOINTS →
        OsmPower.moves_on (world (OsmPower.build_node_query tag) e) = true) →
  (∀ e, e ∈ OsmPower.OVERPASS_ENDPOINTS →
        OsmPower.moves_on (world (OsmPower.build_way_query tag) e) = true) →
  OsmPower.process_node_tag json2geojson world tag =
    (Network <$> ((λ e, Request (e, OsmPower.build_node_query tag))
                    <$> OsmPower.OVERPASS_ENDPOINTS), Returned false) ∧
  OsmPower.process_way_tag json2geojson world tag =
    (Network <$> ((λ e, Request (e, OsmPower.build_way_query tag))
                    <$> OsmPower.OVERPASS_ENDPOINTS), Returned false).
Proof.
  intros Hnode Hway.
  rewrite process_node_tag_unfold, process_way_tag_unfold.
  unfold OsmPower.fetch_overpass. cbv zeta.
  by rewrite !try_endpoints_exhausted by done.
Qed.

Lemma tag_given_up_when_endpoints_fail_witness :
  (OsmPower.process_way_tag (λ doc, Returned doc) (λ _ _, Response 429 None)
     "line").2 = Returned false ∧
  writes (OsmPower.process_way_tag (λ doc, Returned doc)
            (λ _ _, Response 429 None) "line").1 = [].
Proof.
  destruct (tag_given_up_when_endpoints_fail (λ doc, Returned doc)
              (λ _ _, Response 429 None) "line") as [_ Hway].
  - intros e _. reflexivity.
  - intros e _. reflexivity.
  - rewrite Hway. split; reflexivity.
Defined.

(** X18: when the fetch for a way tag returns a document, the converter
    returns and [transform_geojson] returns, [process_way_tag] returns
    [True] and writes exactly one file, named after the tag under
    [downloads], holding the transformed document; that document is a
    fixed point of [transform_geojson]. *)
Theorem way_tag_saves_transformed json2geojson world tag osm_data converted geojson :
  (OsmPower.fetch_overpass (world (OsmPower.build_way_query tag))
     (OsmPower.build_way_query tag)).2 = Returned (Some osm_data) →
  json2geojson osm_data = Returned converted →
  OsmPower.transform_geojson converted = Returned geojson →
  (OsmPower.process_way_tag json2geojson world tag).2 = Returned true ∧
  writes (OsmPower.process_way_tag json2geojson world tag).1 =
    [("downloads/osm_power_way_" +:+ tag +:+ ".geojson", geojson)] ∧
  OsmPower.transform_geojson geojson = Returned geojson.
Proof.
  intros Hfetch Hconvert Htransform.
  rewrite process_way_tag_unfold. cbv zeta.
  rewrite Hfetch, Hconvert. cbn [mbind result_bind]. rewrite Htransform.
  apply transform_geojson_inv in Htransform as (items & out & _ & Hout & ->).
  destruct (transform_features_cleaned _ _ Hout) as [Hcleaned _].
  pose proof (transform_geojson_fixed _ Hcleaned) as Hfixed.
  cbn [get]. rewrite collection_lookup_features.
  cbn [default mbind result_bind len fst snd id].
  rewrite writes_app, writes_network. done.
Qed.

Lemma way_tag_saves_transformed_witness :
  writes (OsmPower.process_way_tag
            (λ _, Returned (JObj {[ "features" := JArr [JObj ∅] ]}))
            (λ _ _, Response 200 (Some (JObj {[ "elements" := JArr [JInt 1] ]})))
            "line").1
  = [("downloads/osm_power_way_line.geojson"%string,
      JObj {[ "type" := JStr "FeatureCollection";
              "features" := JArr [Props.clean_feature ∅] ]})].
Proof.
  destruct (way_tag_saves_transformed
    (λ _, Returned (JObj {[ "features" := JArr [JObj ∅] ]}))
    (λ _ _, Response 200 (Some (JObj {[ "elements" := JArr [JInt 1] ]})))
    "line" (JObj {[ "elements" := JArr [JInt 1] ]})
    (JObj {[ "features" := JArr [JObj ∅] ]})
    (JObj {[ "type" := JStr "FeatureCollection";
             "features" := JArr [Props.clean_feature ∅] ]}))
    as (_ & Hwrites & _).
  - reflexivity.
  - reflexivity.
  - reflexivity.
  - exact Hwrites.
Defined.

(** X19: when the fetch for a node tag returns a document and the
    converter returns a dict whose [features] has a length (or is
    missing), [process_node_tag] returns [True] and writes exactly one
    file, named after the tag under [downloads], holding the converted
    document as the converter gave it. *)
Theorem node_tag_saves_converted json2geojson world tag osm_data geojson n :
  (OsmPower.fetch_overpass (world (OsmPower.build_node_query tag))
     (OsmPower.build_node_query tag)).2 = Returned (Some osm_data) →
  json2geojson osm_data = Returned (JObj geojson) →
  len (default (JArr []) (geojson !! "features")) = Returned n →
  (OsmPower.process_node_tag json2geojson world tag).2 = Returned true ∧
  writes (OsmPower.process_node_tag json2geojson world tag).1 =
    [("downloads/osm_power_node_" +:+ tag +:+ ".geojson", JObj geojson)].
Proof.
  intros Hfetch Hconvert Hlen.
  rewrite process_node_tag_unfold. cbv zeta.
  rewrite Hfetch, Hconvert. cbn [get mbind result_bind]. rewrite Hlen.
  cbn [fst snd]. by rewrite writes_app, writes_network.
Qed.

Lemma node_tag_saves_converted_witness :
  writes (OsmPower.process_node_tag
            (λ _, Returned (JObj {[ "features" := JArr [JObj ∅] ]}))
            (λ _ _, Response 200 (Some (JObj {[ "elements" := JArr [JInt 1] ]})))
            "switch").1
  = [("downloads/osm_power_node_switch.geojson"%string,
      JObj {[ "features" := JArr [JObj ∅] ]})].
Proof.
  destruct (node_tag_saves_converted
    (λ _, Returned (JObj {[ "features" := JArr [JObj ∅] ]}))
    (λ _ _, Response 200 (Some (JObj {[ "elements" := JArr [JInt 1] ]})))
    "switch" (JObj {[ "elements" := JArr [JInt 1] ]})
    {[ "features" := JArr [JObj ∅] ]} 1%nat) as [_ Hwrites].
  - reflexivity.
  - reflexivity.
  - reflexivity.
  - exact Hwrites.
Defined.

Section osm_main.
Variable json2geojson : json → result json.
Variable world : string → string → requests_outcome.

Lemma process_tags_cons
    (process : string → io (effect OsmPower.target) bool) prefix tag rest results :
  OsmPower.process_tags process prefix (tag :: rest) results =
    match (process tag).2 with
    | Raised e => ((process tag).1, Raised e)
    | Returned ok =>
        let results' :=
          if ok then (results.1 ++ [prefix +:+ tag], results.2)
          else (results.1, results.2 ++ [prefix +:+ tag]) in
        ((process tag).1 ++ (OsmPower.process_tags process prefix rest results').1,
         (OsmPower.process_tags process prefix rest results').2)
    end.
Proof.
  cbn [OsmPower.process_tags]. destruct (process tag) as [t [ok|e]]; [|done].
  cbn. by destruct (OsmPower.process_tags process prefix rest _).
Qed.

(** Each loop files every tag under exactly one of the two lists, and
    under success as many tags as it wrote files. *)
Lemma process_tags_partition
    (process : string → io (effect OsmPower.target) bool) prefix tags :
  (∀ tag t ok, process tag = (t, Returned ok) →
               length (writes t) = if ok then 1%nat else 0%nat) →
  ∀ results t results',
    OsmPower.process_tags process prefix tags results = (t, Returned results') →
    results'.1 ++ results'.2
      ≡ₚ (results.1 ++ results.2) ++ (String.append prefix <$> tags) ∧
    length results'.1 = (length results.1 + length (writes t))%nat.
Proof.
  intros Hcount. induction tags as [|tag rest IH]; intros results t results'.
  { cbn [OsmPower.process_tags]. intros [= <- <-]. cbn.
    rewrite app_nil_r. split; [done|lia]. }
  rewrite process_tags_cons.
  destruct (process tag) as [t1 [ok|e]] eqn:Hrun; [|done]. cbv zeta. cbn [fst snd].
  destruct (OsmPower.process_tags process prefix rest _) as [t2 r2] eqn:Hrest.
  cbn [fst snd]. intros [= <- ->].
  destruct (IH _ _ _ Hrest) as [Hperm Hlen].
  rewrite writes_app, length_app, (Hcount _ _ _ Hrun), Hlen, Hperm.
  destruct ok; cbn [fst snd]; (split; [|rewrite ?length_app; cbn; lia]).
  - rewrite fmap_cons. by rewrite <- !app_assoc, (Permutation_app_swap_app [_]).
  - rewrite fmap_cons. by rewrite <- !app_assoc.
Qed.

Lemma main_unfold :
  OsmPower.main json2geojson world =
    let nodes := OsmPower.process_tags
                   (OsmPower.process_node_tag json2geojson world) "node:"
                   OsmPower.NODE_POWER_TAGS ([], []) in
    match nodes.2 with
    | Raised e => (nodes.1, Raised e)
    | Returned results =>
        (nodes.1 ++ (OsmPower.process_tags
                       (OsmPower.process_way_tag json2geojson world) "way:"
                       OsmPower.WAY_POWER_TAGS results).1,
         (OsmPower.process_tags
            (OsmPower.process_way_tag json2geojson world) "way:"
            OsmPower.WAY_POWER_TAGS results).2)
    end.
Proof.
  unfold OsmPower.main. cbv zeta.
  destruct (OsmPower.process_tags (OsmPower.process_node_tag json2geojson world)
              "node:" OsmPower.NODE_POWER_TAGS ([], [])) as [t [results|e]]; [|done].
  cbn [mbind io_bind fst snd].
  by destruct (OsmPower.process_tags (OsmPower.process_way_tag json2geojson world)
                 "way:" OsmPower.WAY_POWER_TAGS results).
Qed.

(** A loop in which every tag is given up. *)
Lemma process_tags_all_false
    (process : string → io (effect OsmPower.target) bool) prefix trace tags :
  ∀ results,
  (∀ tag, tag ∈ tags → process tag = (trace tag, Returned false)) →
  OsmPower.process_tags process prefix tags results =
    (tags ≫= trace, Returned (results.1, results.2 ++ (String.append prefix <$> tags))).
Proof.
  induction tags as [|tag rest IH]; intros results Hall.
  { cbn. rewrite app_nil_r. by destruct results. }
  rewrite process_tags_cons, (Hall tag) by left. cbv zeta. cbn [fst snd].
  rewrite IH by (intros t ?; apply Hall; by right). cbn [fst snd].
  by rewrite <- app_assoc.
Qed.
End osm_main.

(** X20: when [main] of [osm_power.py] runs to its end, every one of the
    fifteen tags is filed under exactly one of [success] and [failed],
    and [success] holds as many labels as files were written: a tag is a
    success exactly when its file was saved. *)
Theorem osm_main_partition json2geojson world t success failed :
  OsmPower.main json2geojson world = (t, Returned (success, failed)) →
  success ++ failed ≡ₚ Props.labels ∧
  (length success + length failed = 15)%nat ∧
  length (writes t) = length success.
Proof.
  rewrite main_unfold. cbv zeta.
  destruct (OsmPower.process_tags (OsmPower.process_node_tag json2geojson world)
              "node:" OsmPower.NODE_POWER_TAGS ([], [])) as [t1 [r1|e]] eqn:Hnodes;
    [|done].
  cbn [fst snd].
  destruct (OsmPower.process_tags (OsmPower.process_way_tag json2geojson world)
              "way:" OsmPower.WAY_POWER_TAGS r1) as [t2 r2] eqn:Hways.
  cbn [fst snd]. intros [= <- ->].
  destruct (process_tags_partition _ _ _
              (process_node_tag_writes json2geojson world) _ _ _ Hnodes)
    as [Hperm1 Hlen1].
  destruct (process_tags_partition _ _ _
              (process_way_tag_writes json2geojson world) _ _ _ Hways)
    as [Hperm2 Hlen2].
  cbn [fst snd] in *.
  assert (success ++ failed ≡ₚ Props.labels) as Hperm.
  { rewrite Hperm2, Hperm1. done. }
  split_and!; [done| |].
  - rewrite <- length_app, Hperm. reflexivity.
  - rewrite writes_app, length_app, Hlen2, Hlen1. cbn. lia.
Qed.

Lemma osm_main_partition_witness :
  ∃ t success failed,
    OsmPower.main (λ doc, Returned doc)
      (λ query _, if String.eqb query (OsmPower.build_node_query "switch")
                  then Response 200 (Some (JObj {[ "elements" := JArr [JInt 1] ]}))
                  else RequestException)
      = (t, Returned (success, failed)) ∧
    success = ["node:switch"%string] ∧
    (length success + length failed = 15)%nat ∧
    length (writes t) = length success.
Proof.
  eexists _, _, _. split; [vm_compute; reflexivity|].
  split; [reflexivity|].
  eapply (osm_main_partition (λ doc, Returned doc)
    (λ query _, if String.eqb query (OsmPower.build_node_query "switch")
                then Response 200 (Some (JObj {[ "elements" := JArr [JInt 1] ]}))
                else RequestException)).
  vm_compute. reflexivity.
Defined.

(** X21: a total outage does not stop [main] of [osm_power.py]: when
    every request makes [fetch_overpass] move on, [main] runs to its end
    with nothing under [success], the fifteen labels under [failed] in
    the order of the two tag lists, no file written, and every endpoint
    requested once for each tag. *)
Theorem osm_main_total_outage json2geojson world :
  (∀ query e, OsmPower.moves_on (world query e) = true) →
  (OsmPower.main json2geojson world).2 = Returned ([], Props.labels) ∧
  writes (OsmPower.main json2geojson world).1 = [] ∧
  requests (traffic (OsmPower.main json2geojson world).1) =
    ((OsmPower.build_node_query <$> OsmPower.NODE_POWER_TAGS)
       ++ (OsmPower.build_way_query <$> OsmPower.WAY_POWER_TAGS))
      ≫= (λ query, (λ e, (e, query)) <$> OsmPower.OVERPASS_ENDPOINTS).
Proof.
  intros Hout.
  assert (∀ tag,
    OsmPower.process_node_tag json2geojson world tag =
      (Network <$> ((λ e, Request (e, OsmPower.build_node_query tag))
                      <$> OsmPower.OVERPASS_ENDPOINTS), Returned false) ∧
    OsmPower.process_way_tag json2geojson world tag =
      (Network <$> ((λ e, Request (e, OsmPower.build_way_query tag))
                      <$> OsmPower.OVERPASS_ENDPOINTS), Returned false)) as Hgiven.
  { intros tag. rewrite process_node_tag_unfold, process_way_tag_unfold.
    unfold OsmPower.fetch_overpass. cbv zeta.
    by rewrite !try_endpoints_exhausted by (intros e _; apply Hout). }
  pose proof (process_tags_all_false
    (OsmPower.process_node_tag json2geojson world) "node:"
    (λ tag, Network <$> ((λ e, Request (e, OsmPower.build_node_query tag))
                           <$> OsmPower.OVERPASS_ENDPOINTS))
    OsmPower.NODE_POWER_TAGS ([], []) (λ tag _, proj1 (Hgiven tag))) as Hnodes.
  pose proof (process_tags_all_false
    (OsmPower.process_way_tag json2geojson world) "way:"
    (λ tag, Network <$> ((λ e, Request (e, OsmPower.build_way_query tag))
                           <$> OsmPower.OVERPASS_ENDPOINTS))
    OsmPower.WAY_POWER_TAGS
    ([], [] ++ (String.append "node:" <$> OsmPower.NODE_POWER_TAGS))
    (λ tag _, proj2 (Hgiven tag))) as Hways.
  rewrite main_unfold. cbv zeta. rewrite Hnodes. cbn [fst snd].
  rewrite Hways. cbn [fst snd]. clear Hnodes Hways Hgiven. split_and!; [done| |].
  - generalize OsmPower.build_node_query, OsmPower.build_way_query.
    intros nq wq. vm_compute. reflexivity.
  - generalize OsmPower.build_node_query, OsmPower.build_way_query.
    intros nq wq. vm_compute. reflexivity.
Qed.

Lemma osm_main_total_outage_witness :
  (OsmPower.main (λ doc, Returned doc) (λ _ _, Response 503 None)).2
    = Returned ([], Props.labels) ∧
  writes (OsmPower.main (λ doc, Returned doc) (λ _ _, Response 503 None)).1 = [].
Proof.
  destruct (osm_main_total_outage (λ doc, Returned doc) (λ _ _, Response 503 None))
    as (Hret & Hwrites & _).
  - intros query e. reflexivity.
  - split; [exact Hret|exact Hwrites].
Defined.

(** ** The Overpass queries *)

Lemma string_app_length s t :
  String.length (s +:+ t) = (String.length s + String.length t)%nat.
Proof. induction s as [|c s IH]; [done|]. simpl. by rewrite IH. Qed.

Lemma string_app_inj_r s1 : ∀ s2 t, s1 +:+ t = s2 +:+ t → s1 = s2.
Proof.
  induction s1 as [|c1 s1 IH]; intros [|c2 s2] t Heq.
  - done.
  - apply (f_equal String.length) in Heq.
    change (String.length t = S (String.length (s2 +:+ t))) in Heq.
    rewrite (string_app_length s2 t) in Heq. lia.
  - apply (f_equal String.length) in Heq.
    change (S (String.length (s1 +:+ t)) = String.length t) in Heq.
    rewrite (string_app_length s1 t) in Heq. lia.
  - change (String c1 (s1 +:+ t) = String c2 (s2 +:+ t)) in Heq.
    injection Heq as -> Heq. f_equal. by eapply IH.
Qed.

(** X22: the query built for a tag determines the tag, and a node query
    is never a way query; the fifteen queries that [main] sends are
    pairwise distinct, so no endpoint is asked the same query twice. *)
Theorem queries_distinguish_tags tag tag' :
  (OsmPower.build_node_query tag = OsmPower.build_node_query tag' ↔ tag = tag') ∧
  (OsmPower.build_way_query tag = OsmPower.build_way_query tag' ↔ tag = tag') ∧
  OsmPower.build_node_query tag ≠ OsmPower.build_way_query tag' ∧
  NoDup ((OsmPower.build_node_query <$> OsmPower.NODE_POWER_TAGS)
           ++ (OsmPower.build_way_query <$> OsmPower.WAY_POWER_TAGS)).
Proof.
  unfold OsmPower.build_node_query, OsmPower.build_way_query. split_and!.
  - split; [|by intros ->]. intros Heq.
    do 8 apply (inj (String.append _)) in Heq.
    by apply string_app_inj_r in Heq.
  - split; [|by intros ->]. intros Heq.
    do 8 apply (inj (String.append _)) in Heq.
    by apply string_app_inj_r in Heq.
  - intros Heq. do 2 apply (inj (String.append _)) in Heq.
    cbn in Heq. discriminate Heq.
  - apply (bool_decide_unpack _). by vm_compute.
Qed.

(** ** The enrichment, run again and run to its end *)

Lemma submarine_fetch_jitter u net jitter jitter' retries :
  (SubmarineCable.fetch_json u net jitter retries).2
    = (SubmarineCable.fetch_json u net jitter' retries).2.
Proof. apply submarine_attempts_jitter. Qed.

(** X23: enriching a feature that has already been enriched, against the
    same answers of the network, changes nothing more: the merge of a
    detail response is idempotent, and a run that left the feature as it
    was does so again. *)
Theorem enrichment_idempotent net jitter jitter' feature :
  SubmarineCable.after_enrich net jitter'
    (SubmarineCable.after_enrich net jitter feature)
  = SubmarineCable.after_enrich net jitter feature.
Proof.
  unfold SubmarineCable.after_enrich at 2 3.
  destruct (SubmarineCable.enrich_feature net jitter feature).2
    as [feature'|e] eqn:Hrun.
  2: { unfold SubmarineCable.after_enrich.
       by rewrite (enrich_jitter net jitter' jitter), Hrun. }
  pose proof Hrun as Hcases.
  apply enrich_returned in Hcases
    as [-> | (fields & props & cable_id & details & enriched & -> & Hp & Hi
              & Htruthy & Hfetch & Hd & Hc & ->)].
  { unfold SubmarineCable.after_enrich.
    by rewrite (enrich_jitter net jitter' jitter), Hrun. }
  assert ((enriched ∪ props) !! "id" = Some cable_id) as Hi'.
  { rewrite lookup_union_r; [done|].
    by rewrite (collect_frame _ _ _ _ Hc _ id_not_detail_key). }
  assert (Spec.identity
            (JObj (<["properties" := JObj (enriched ∪ props)]> fields))
          = Returned cable_id) as Hid.
  { unfold Spec.identity. cbn. rewrite lookup_insert_eq. cbn. by rewrite Hi'. }
  unfold SubmarineCable.after_enrich.
  rewrite (enrich_with_identity _ _ _ _ Hid Htruthy), io_bind_snd.
  rewrite (submarine_fetch_jitter _ net jitter' jitter), Hfetch, Hd.
  cbn [negb]. rewrite io_bind_snd. cbn [lift snd]. rewrite Hc.
  unfold SubmarineCable.update_properties. cbn. rewrite lookup_insert_eq. cbn.
  by rewrite insert_insert_eq, map_union_assoc, map_union_idemp.
Qed.




(** X25: when the fetch of the base collection uses up its retries,
    [main] does not stop: it goes on with the empty dict, finds no
    feature to enrich, and writes a document that holds an empty list
    of features and nothing else. *)
Theorem main_writes_empty_on_base_failure base_net base_jitter net jitter :
  (∀ k, (1 ≤ k ≤ Z.to_nat SubmarineCable.MAX_RETRIES)%nat →
        caught (base_net k) = true) →
  SubmarineCable.main base_net base_jitter net jitter []
    = Returned (JObj {[ "features" := JArr [] ]}).
Proof.
  intros Hfail. unfold SubmarineCable.main, SubmarineCable.fetch_json.
  by rewrite submarine_attempts_exhausted by (intros k ?; apply Hfail; lia).
Qed.

Lemma main_writes_empty_on_base_failure_witness :
  SubmarineCable.main (λ _, HTTPError 502) (λ _, 0%Q)
    (λ _ _, Body None) (λ _ _, 0%Q) []
  = Returned (JObj {[ "features" := JArr [] ]}).
Proof.
  apply (main_writes_empty_on_base_failure (λ _, HTTPError 502) (λ _, 0%Q)
           (λ _ _, Body None) (λ _ _, 0%Q)).
  intros k _. reflexivity.
Defined.



(** ** [main] of [peeringdb_datasets.py] *)

Lemma peeringdb_attempts_returns url headers net jitter todo : ∀ attempt,
  (∀ k, net k ≠ Body None) →
  ∃ data, (PeeringDB.attempts url headers net jitter attempt todo).2 = Returned data.
Proof.
  induction todo as [|todo IH]; intros attempt Hparse; [by eexists|].
  cbn [PeeringDB.attempts]. rewrite emit_bind. cbn [snd].
  pose proof (Hparse attempt) as Hk.
  destruct (net attempt) as [code| | |[doc|]]; try done;
    try (rewrite emit_bind; cbn [snd]; by apply IH).
  by eexists.
Qed.

Lemma download_cons headers world jitter ep rest :
  PeeringDB.download headers world jitter (ep :: rest) =
    let run := PeeringDB.fetch_json (PeeringDB.dataset_url ep) headers
                 (world (PeeringDB.dataset_url ep))
                 (jitter (PeeringDB.dataset_url ep)) PeeringDB.MAX_RETRIES in
    match run.2 with
    | Raised e => (Network <$> run.1, Raised e)
    | Returned data =>
        ((Network <$> run.1)
           ++ WriteFile (PeeringDB.out_path ep) data
           :: (PeeringDB.download headers world jitter rest).1,
         (PeeringDB.download headers world jitter rest).2)
    end.
Proof.
  cbn [PeeringDB.download]. cbv zeta. rewrite network_bind.
  destruct (PeeringDB.fetch_json _ _ _ _ _).2 as [data|e]; [|done].
  rewrite emit_bind. done.
Qed.

Lemma download_requests headers world jitter eps :
  Forall (λ r, ∃ ep, ep ∈ eps ∧ r = (PeeringDB.dataset_url ep, headers))
    (requests (traffic (PeeringDB.download headers world jitter eps).1)).
Proof.
  induction eps as [|ep rest IH]; [constructor|].
  rewrite download_cons. cbv zeta.
  destruct (peeringdb_attempts_requests (PeeringDB.dataset_url ep) headers
              (world (PeeringDB.dataset_url ep)) (jitter (PeeringDB.dataset_url ep))
              (Z.to_nat PeeringDB.MAX_RETRIES) 1) as (m & _ & _ & Hreq & _).
  fold (PeeringDB.fetch_json (PeeringDB.dataset_url ep) headers
          (world (PeeringDB.dataset_url ep)) (jitter (PeeringDB.dataset_url ep))
          PeeringDB.MAX_RETRIES) in Hreq.
  assert (Forall (λ r, ∃ ep', ep' ∈ ep :: rest
                       ∧ r = (PeeringDB.dataset_url ep', headers))
            (replicate m (PeeringDB.dataset_url ep, headers))) as Hhere.
  { apply Forall_replicate. exists ep. split; [left|done]. }
  destruct (PeeringDB.fetch_json _ _ _ _ _).2 as [data|e]; cbn [fst].
  - rewrite traffic_app, traffic_network. cbn [traffic omap list_omap].
    fold (traffic (PeeringDB.download headers world jitter rest).1).
    unfold requests at 1. rewrite omap_app.
    fold (requests (PeeringDB.fetch_json (PeeringDB.dataset_url ep) headers
            (world (PeeringDB.dataset_url ep)) (jitter (PeeringDB.dataset_url ep))
            PeeringDB.MAX_RETRIES).1).
    fold (requests (traffic (PeeringDB.download headers world jitter rest).1)).
    rewrite Hreq. apply Forall_app. split; [done|].
    eapply Forall_impl; [exact IH|]. intros r (ep' & Hin & ->).
    exists ep'. split; [by right|done].
  - by rewrite traffic_network, Hreq.
Qed.

(** X27: [main] of [peeringdb_datasets.py] talks to the network only
    with a key: without the environment variable, or with an empty one,
    it raises its [ValueError] before any request or write; and every
    request it makes goes to the url of one of the nine datasets and
    carries the [Authorization] header built from the key. *)
Theorem peeringdb_requests_authorized api_key world jitter :
  (api_key = None ∨ api_key = Some ""%string →
   PeeringDB.main api_key world jitter = ([], PeeringDB.MissingKey)) ∧
  ∀ u h, (u, h) ∈ requests (traffic (PeeringDB.main api_key world jitter).1) →
    ∃ key ep,
      api_key = Some key ∧ key ≠ ""%string ∧
      h = [("Authorization", "Api-Key " +:+ key)]%string ∧
      ep ∈ PeeringDB.ENDPOINTS ∧ u = PeeringDB.dataset_url ep.
Proof.
  split; [by intros [-> | ->]|].
  intros u h. unfold PeeringDB.main.
  destruct api_key as [key|]; [|by intros ?%elem_of_nil].
  destruct (String.eqb key "") eqn:Hkey; [by intros ?%elem_of_nil|].
  apply String.eqb_neq in Hkey.
  pose proof (download_requests [("Authorization", "Api-Key " +:+ key)]%string
                world jitter PeeringDB.ENDPOINTS) as Hall.
  destruct (PeeringDB.download _ world jitter PeeringDB.ENDPOINTS) as [t [[]|e]];
    cbn [fst] in *; intros Hin;
    (rewrite Forall_forall in Hall; destruct (Hall _ Hin) as (ep & Hep & [= -> ->]);
     by exists key, ep).
Qed.

Lemma peeringdb_requests_authorized_witness :
  ∃ key ep,
    Some "k"%string = Some key ∧ key ≠ ""%string ∧
    [("Authorization", "Api-Key k")]%string
      = [("Authorization", "Api-Key " +:+ key)]%string ∧
    ep ∈ PeeringDB.ENDPOINTS ∧
    "https://peeringdb.com/api/org"%string = PeeringDB.dataset_url ep.
Proof.
  apply (proj2 (peeringdb_requests_authorized (Some "k"%string)
                  (λ _ _, Body (Some (JObj ∅))) (λ _ _, 0%Q))
           "https://peeringdb.com/api/org"%string
           [("Authorization", "Api-Key k")]%string).
  vm_compute. left.
Defined.

Lemma download_app headers world jitter key before : ∀ rest,
  headers = [("Authorization", "Api-Key " +:+ key)]%string →
  (∀ ep k, ep ∈ before → world (PeeringDB.dataset_url ep) k ≠ Body None) →
  (PeeringDB.download headers world jitter (before ++ rest)).2
    = (PeeringDB.download headers world jitter rest).2 ∧
  writes (PeeringDB.download headers world jitter (before ++ rest)).1
    = ((λ ep, (PeeringDB.out_path ep, Props.dataset key world jitter ep)) <$> before)
        ++ writes (PeeringDB.download headers world jitter rest).1.
Proof.
  intros rest -> Hparse. induction before as [|ep before IH]; [done|].
  destruct IH as [IHret IHwrites]; [intros ep' k ?; apply Hparse; by right|].
  rewrite <- app_comm_cons, download_cons. cbv zeta.
  destruct (peeringdb_attempts_returns (PeeringDB.dataset_url ep)
              [("Authorization", "Api-Key " +:+ key)]%string
              (world (PeeringDB.dataset_url ep)) (jitter (PeeringDB.dataset_url ep))
              (Z.to_nat PeeringDB.MAX_RETRIES) 1
              (λ k, Hparse ep k ltac:(left))) as [data Hdata].
  fold (PeeringDB.fetch_json (PeeringDB.dataset_url ep)
          [("Authorization", "Api-Key " +:+ key)]%string
          (world (PeeringDB.dataset_url ep)) (jitter (PeeringDB.dataset_url ep))
          PeeringDB.MAX_RETRIES) in Hdata.
  rewrite Hdata. cbn [fst snd]. split; [done|].
  rewrite writes_app, writes_network. cbn [writes omap list_omap app].
  fold (writes (PeeringDB.download [("Authorization", "Api-Key " +:+ key)]%string
                  world jitter (before ++ rest)).1).
  rewrite IHwrites, fmap_cons. cbn [app]. f_equal.
  unfold Props.dataset. by rewrite Hdata.
Qed.



(** X29: a body that [json.load] rejects stops [main] of
    [peeringdb_datasets.py] where it is: the decode error goes through
    [main], the files of the datasets before that one have been written,
    and neither that dataset nor any of the later ones is written. *)
Theorem peeringdb_decode_error_stops key world jitter before ep after :
  key ≠ ""%string →
  PeeringDB.ENDPOINTS = before ++ ep :: after →
  (∀ ep' k, ep' ∈ before → world (PeeringDB.dataset_url ep') k ≠ Body None) →
  world (PeeringDB.dataset_url ep) 1%nat = Body None →
  (PeeringDB.main (Some key) world jitter).2 = PeeringDB.Escaped JSONDecodeError ∧
  writes (PeeringDB.main (Some key) world jitter).1
    = (λ ep, (PeeringDB.out_path ep, Props.dataset key world jitter ep)) <$> before.
Proof.
  intros Hkey Hlist Hparse Hbad. apply String.eqb_neq in Hkey.
  destruct (download_app [("Authorization", "Api-Key " +:+ key)]%string
              world jitter key before (ep :: after) eq_refl Hparse)
    as [Hret Hwrites].
  rewrite download_cons in Hret, Hwrites. cbv zeta in Hret, Hwrites.
  unfold PeeringDB.fetch_json in Hret, Hwrites.
  change (Z.to_nat PeeringDB.MAX_RETRIES) with 5%nat in Hret, Hwrites.
  rewrite (peeringdb_attempts_malformed _ _ _ _ 4 1 Hbad) in Hret, Hwrites.
  cbn [fst snd] in Hret, Hwrites. rewrite writes_network, app_nil_r in Hwrites.
  unfold PeeringDB.main. rewrite Hkey, Hlist.
  destruct (PeeringDB.download _ world jitter (before ++ ep :: after))
    as [t [[]|e]]; cbn [fst snd] in *; [done|].
  injection Hret as ->. by split.
Qed.

Lemma peeringdb_decode_error_stops_witness :
  (PeeringDB.main (Some "k"%string)
     (λ url _, if String.eqb url "https://peeringdb.com/api/fac"
               then Body None else Body (Some (JObj ∅)))
     (λ _ _, 0%Q)).2 = PeeringDB.Escaped JSONDecodeError ∧
  (writes (PeeringDB.main (Some "k"%string)
     (λ url _, if String.eqb url "https://peeringdb.com/api/fac"
               then Body None else Body (Some (JObj ∅)))
     (λ _ _, 0%Q)).1).*1 = ["downloads/peeringdb_org.json"%string].
Proof.
  destruct (peeringdb_decode_error_stops "k"
    (λ url _, if String.eqb url "https://peeringdb.com/api/fac"
              then Body None else Body (Some (JObj ∅)))
    (λ _ _, 0%Q) ["org"%string] "fac"
    [ "net"; "ix"; "campus"; "carrier"; "netfac"; "ixfac"; "carrierfac" ]%string)
    as [Hret Hwrites].
  - discriminate.
  - reflexivity.
  - intros ep' k Hep. apply elem_of_cons in Hep as [->|Hep]; [discriminate|].
    by apply elem_of_nil in Hep.
  - reflexivity.
  - split; [exact Hret|]. rewrite Hwrites. reflexivity.
Defined.
